(** * Intraday analyzer: the pipeline of [intraday_analysis.py]

    A shallow embedding of the validate / fetch / compute pipeline of
    [src/intraday_analysis.py], and the properties its specification states.

    The numbers of the program are numpy [float64] values.  The statistics
    are written once over an interface [Arith] of the operations the code
    uses, and read at two instances: [Float64], the binary64 arithmetic of
    the machine (Rocq's primitive floats), which is what the program runs,
    and [Exact], real arithmetic with one undefined value, which is what the
    algebra of the formulas is about. *)

From Stdlib Require Import String ZArith Bool List Lia Permutation Sorted.
From Stdlib Require Import Floats Uint63.
From Stdlib Require Import Reals Lra.
Import ListNotations.


(** ** Configuration *)

Module Config.
Definition MIN_DATA_POINTS : nat := 60.
Definition WORKERS : nat := 10.
Definition TIMEOUT : Z := 10.
End Config.

(** ** Arithmetic *)

(** The operations of a numpy scalar that the program applies.  [neqb] is
    Python's [!=] and [ltb] its [<] ([a > b] is [ltb b a]); on a NaN the
    first answers [true] and the second [false]. *)
Class Arith : Type := {
  num : Type;
  zero : num;
  one : num;
  hundred : num;
  nan : num;
  add : num -> num -> num;
  sub : num -> num -> num;
  mul : num -> num -> num;
  div : num -> num -> num;
  opp : num -> num;
  sqrt : num -> num;
  of_nat : nat -> num;
  is_nan : num -> bool;
  neqb : num -> num -> bool;
  ltb : num -> num -> bool
}.

(** binary64, as the machine computes.  A length becomes a float through
    the machine integer, exactly below [2^53]. *)
#[export] Instance Float64 : Arith := {
  num := float;
  zero := 0%float;
  one := 1%float;
  hundred := 100%float;
  nan := PrimFloat.nan;
  add := PrimFloat.add;
  sub := PrimFloat.sub;
  mul := PrimFloat.mul;
  div := PrimFloat.div;
  opp := PrimFloat.opp;
  sqrt := PrimFloat.sqrt;
  of_nat := fun n => PrimFloat.of_uint63 (Uint63.of_Z (Z.of_nat n));
  is_nan := PrimFloat.is_nan;
  neqb := fun x y => negb (PrimFloat.eqb x y);
  ltb := PrimFloat.ltb
}.

(** Real arithmetic with one undefined value, [None], in the place of NaN:
    no rounding, no infinities; dividing by zero and the square root of a
    negative number are undefined, and an undefined operand makes the
    result undefined. *)
Definition exact_lift (f : R -> R -> R) (x y : option R) : option R :=
  match x, y with
  | Some a, Some b => Some (f a b)
  | _, _ => None
  end.

Definition exact_div (x y : option R) : option R :=
  match x, y with
  | Some a, Some b => if Req_dec_T b 0%R then None else Some (Rdiv a b)
  | _, _ => None
  end.

Definition exact_sqrt (x : option R) : option R :=
  match x with
  | Some a => if Rlt_dec a 0%R then None else Some (R_sqrt.sqrt a)
  | None => None
  end.

Definition exact_neqb (x y : option R) : bool :=
  match x, y with
  | Some a, Some b => if Req_dec_T a b then false else true
  | _, _ => true
  end.

Definition exact_ltb (x y : option R) : bool :=
  match x, y with
  | Some a, Some b => if Rlt_dec a b then true else false
  | _, _ => false
  end.

Definition Exact : Arith := {|
  num := option R;
  zero := Some 0%R;
  one := Some 1%R;
  hundred := Some 100%R;
  nan := None;
  add := exact_lift Rplus;
  sub := exact_lift Rminus;
  mul := exact_lift Rmult;
  div := exact_div;
  opp := fun x => match x with Some a => Some (Ropp a) | None => None end;
  sqrt := exact_sqrt;
  of_nat := fun n => Some (INR n);
  is_nan := fun x => match x with Some _ => false | None => true end;
  neqb := exact_neqb;
  ltb := exact_ltb
|}.

(** The sum of a list of reals, from the left, and the squared deviations
    from [m]: what [total] and [sq_dev] are on defined values. *)
Definition Rsum (l : list R) : R := fold_left Rplus l 0%R.

Definition Rsq_dev (m : R) (l : list R) : list R :=
  map (fun x => Rmult (Rminus x m) (Rminus x m)) l.

(** ** The standardized score, in the words of the specification *)

(** These definitions are written from the text of the specification, on
    real numbers, and not from the code: the result of the code is
    compared with them below. *)







(** ** Reporting: the recommendation *)

Inductive recommendation_t : Type := Buy | Avoid | Neutral.

Section Reporting.
Context {A : Arith}.

(** [np.where((z > 1) & (r > 0), 'Buy',
              np.where((z < -1) & (r < 0), 'Avoid', 'Neutral'))],
    at one row. *)
Definition recommendation (z_score risk_adj : num) : recommendation_t :=
  if ltb one z_score && ltb zero risk_adj then Buy
  else if ltb z_score (opp one) && ltb risk_adj zero then Avoid
  else Neutral.
End Reporting.

(** ** Statistics: what pandas and numpy compute *)

Section Statistics.
Context {A : Arith}.

(** A sum, accumulated from the left (numpy adds in blocks, pairwise; what
    is proved below of sums does not depend on the order). *)
Definition total (l : list num) : num := fold_left add l zero.

(** [np.mean]. *)
Definition np_mean (l : list num) : num := div (total l) (of_nat (length l)).

(** The squared deviations from [m]. *)
Definition sq_dev (m : num) (l : list num) : list num :=
  map (fun x => mul (sub x m) (sub x m)) l.

(** The variance with [ddof] delta degrees of freedom: the squared
    deviations from the mean, summed, over [len - ddof]. *)
Definition variance (ddof : nat) (l : list num) : num :=
  div (total (sq_dev (np_mean l) l)) (of_nat (length l - ddof)).

(** [np.std(l)]: numpy's default is [ddof = 0]. *)
Definition np_std (l : list num) : num := sqrt (variance 0 l).

(** [Series.std()]: pandas' default is [ddof = 1]. *)
Definition pandas_std (l : list num) : num := sqrt (variance 1 l).

(** [Series.pct_change()]: each value over the one before it, minus one; the
    first row has no value before it and is NaN. *)
Fixpoint pct_change_from (prev : num) (l : list num) : list num :=
  match l with
  | [] => []
  | c :: l' => sub (div c prev) one :: pct_change_from c l'
  end.

Definition pct_change (l : list num) : list num :=
  match l with
  | [] => []
  | c :: l' => nan :: pct_change_from c l'
  end.

(** [Series.dropna()]. *)
Definition dropna (l : list num) : list num :=
  filter (fun x => negb (is_nan x)) l.

(** [Series.iloc[0]] and [Series.iloc[-1]]; [None] is the [IndexError] of
    an empty series. *)
Definition iloc_first (l : list num) : option num := nth_error l 0.
Definition iloc_last (l : list num) : option num := nth_error l (length l - 1).

End Statistics.

(** ** Session resolution *)

Local Open Scope Z_scope.

(** A local date and time of the market's timezone: the date by its
    proleptic Gregorian ordinal ([date.toordinal()]), and the hour and
    minute of the day.  Asia/Kolkata has one offset the year round, so
    instants compare by their local fields.  [now] is the reading of the
    system clock: the bounds of Python's dates (the years 1 to 9999) are
    not part of the model. *)
Record datetime : Type := mk_datetime {
  day_of : Z;
  hour_of : Z;
  minute_of : Z
}.

(** [date.weekday()]: Monday is 0 and Sunday is 6. *)
Definition weekday (d : Z) : Z := (d + 6) mod 7.

(** [now - timedelta(days=delta)]. *)
Definition minus_days (now : datetime) (delta : Z) : datetime :=
  mk_datetime (day_of now - delta) (hour_of now) (minute_of now).

(** Minutes since the start of day 0: the order of two instants. *)
Definition instant (t : datetime) : Z :=
  (day_of t * 24 + hour_of t) * 60 + minute_of t.

(** The [while True] loop of [_get_market_day], started at [delta]; [fuel]
    bounds the number of candidates it may try. *)
Fixpoint walk_back (fuel : nat) (now : datetime) (delta : Z) : option Z :=
  match fuel with
  | O => None
  | S fuel' =>
      let candidate := minus_days now delta in
      if weekday (day_of candidate) <? 5 then Some (day_of candidate)
      else walk_back fuel' now (delta + 1)
  end.

(** [_get_market_day], at the instant [now] that [datetime.now] returned. *)
Definition _get_market_day (fuel : nat) (now : datetime) : option Z :=
  if (5 <=? weekday (day_of now)) || (hour_of now <? 9) || (16 <=? hour_of now)
  then walk_back fuel now 1
  else Some (day_of now).

(** The condition under which [_get_market_day] walks back. *)
Definition walks_back (now : datetime) : Prop :=
  5 <= weekday (day_of now) \/ hour_of now < 9 \/ 16 <= hour_of now.

(** [_get_market_hours]: 09:15 and 15:30 of the market day (the listing's
    two [localize(] calls read with their closing parenthesis). *)
Definition _get_market_hours (market_day : Z) : datetime * datetime :=
  (mk_datetime market_day 9 15, mk_datetime market_day 15 30).

(** [MarketDataProcessor]: the fields [__init__] sets. *)
Record MarketDataProcessor : Type := mk_processor {
  market_day : Z;
  start_time : datetime;
  end_time : datetime
}.

Definition new_processor (fuel : nat) (now : datetime) : option MarketDataProcessor :=
  match _get_market_day fuel now with
  | Some d =>
      let '(o, c) := _get_market_hours d in Some (mk_processor d o c)
  | None => None
  end.

(** The words of the specification: [day] is the latest weekday at or
    before the date [d]. *)
Definition latest_weekday_at_or_before (d day : Z) : Prop :=
  day <= d /\ weekday day < 5 /\ forall d', day < d' <= d -> 5 <= weekday d'.

(** What the loop finds: the latest weekday strictly before the date [d]. *)
Definition latest_weekday_before (d day : Z) : Prop :=
  day < d /\ weekday day < 5 /\ forall d', day < d' < d -> 5 <= weekday d'.

(** ** The market-data provider and the futures of a pool *)

Definition ticker : Type := string.

(** What [future.result()] gives: the task's value, or the exception it
    raised. *)
Inductive outcome (X : Type) : Type :=
| Returned (x : X)
| Raised.
Arguments Returned {X} x.
Arguments Raised {X}.

(** A future, with the ticker [future_to_ticker] maps it to. *)
Definition future (X : Type) : Type := (ticker * outcome X)%type.

(** [concurrent.futures.as_completed]: the futures in the order they
    complete.  The list [sched] gives the completion time of each submitted
    future, by position (0 where it gives none); futures completing at the
    same time keep the order of submission. *)
Fixpoint stamp {F : Type} (sched : list nat) (fs : list F) : list (nat * F) :=
  match fs with
  | [] => []
  | f :: fs' => (hd 0%nat sched, f) :: stamp (tl sched) fs'
  end.

Fixpoint insert_by_time {F : Type} (p : nat * F) (l : list (nat * F)) : list (nat * F) :=
  match l with
  | [] => [p]
  | q :: l' => if (fst q <? fst p)%nat then q :: insert_by_time p l' else p :: l
  end.

Definition as_completed {F : Type} (sched : list nat) (fs : list F) : list F :=
  map snd (fold_right insert_by_time [] (stamp sched fs)).

(** A stamped future, one time unit later. *)
Definition later {F : Type} (p : nat * F) : nat * F := (S (fst p), snd p).

(** The schedule of a pool of worker threads.  The code fixes neither the
    order in which the tasks of a pool reach the provider nor the order in
    which they complete: a schedule gives, for each submitted task by
    position (0 where it gives none), the time at which it calls the
    provider and the time at which its future completes.  Every order is
    allowed, those included that a pool of [Config.WORKERS] threads cannot
    produce: what holds under every schedule holds of every run. *)
Record schedule : Type := mk_schedule {
  start_times : list nat;
  completion_times : list nat
}.

(** The submitted items, each with the position at which it was
    submitted, from [i] on. *)
Fixpoint number {F : Type} (i : nat) (fs : list F) : list (nat * F) :=
  match fs with
  | [] => []
  | f :: fs' => (i, f) :: number (S i) fs'
  end.

Section Pipeline.
Context {A : Arith}.

(** A [DataFrame] of price bars, by the [Close] of each row, the one column
    the program reads. *)
Definition frame : Type := list num.

(** The two queries the program sends: [history(period="1d", timeout)] and
    [history(interval="1m", start, end, timeout)]. *)
Inductive request : Type :=
| Probe (t : ticker) (timeout : Z)
| Bars (t : ticker) (start_ end_ : datetime) (timeout : Z).

(** The provider's answer: a frame, or an exception (network, timeout,
    malformed response). *)
Inductive response : Type :=
| Data (f : frame)
| Failure.

(** The provider of one run: its answer to a request, given the requests
    it was sent before (a network that fails now and then, a rate limit).
    A provider [fun _ => answers] gives a request the same answer whenever
    it is sent. *)
Variable provider : list request -> request -> response.

(** A computation that calls the provider: it extends the log of the
    requests sent so far. *)
Definition Call (X : Type) : Type := list request -> X * list request.

Definition ret {X : Type} (x : X) : Call X := fun log => (x, log).

Definition bind {X Y : Type} (c : Call X) (k : X -> Call Y) : Call Y :=
  fun log => let (x, log') := c log in k x log'.

Local Notation "x <- c ;; k" := (bind c (fun x => k))
  (at level 61, c at next level, right associativity).

Definition history (r : request) : Call response :=
  fun log => (provider log r, log ++ [r]).

(** The tasks of a pool in the order [started] in which they reach the
    provider, each with the position at which it was submitted; a task of
    this program sends one request, and always returns. *)
Fixpoint run_tasks {X : Type} (task : ticker -> Call X)
  (started : list (nat * ticker)) : Call (list (nat * future X)) :=
  match started with
  | [] => ret []
  | it :: started' =>
      x <- task (snd it) ;;
      fs <- run_tasks task started' ;;
      ret ((fst it, (snd it, Returned x)) :: fs)
  end.

(** [{executor.submit(task, t): t for t in tickers}], once the pool has
    run: the futures in the order of submission.  The tasks were run by
    the worker threads in the order of their start times [starts]. *)
Definition submit_all {X : Type} (starts : list nat) (task : ticker -> Call X)
  (tickers : list ticker) : Call (list (future X)) :=
  done <- run_tasks task (as_completed starts (number 0 tickers)) ;;
  ret (map snd (fold_right insert_by_time [] done)).

(** *** MarketDataValidator *)

Definition _is_valid_ticker (t : ticker) : Call bool :=
  r <- history (Probe t Config.TIMEOUT) ;;
  ret (match r with
       | Data [] => false
       | Data (_ :: _) => true
       | Failure => false
       end).

(** The body of the [as_completed] loop of [get_valid_tickers]. *)
Definition collect_valid (valid : list ticker) (f : future bool) : list ticker :=
  match snd f with
  | Returned true => valid ++ [fst f]
  | Returned false => valid
  | Raised => valid
  end.

Definition get_valid_tickers (sched : schedule) (tickers : list ticker)
  : Call (list ticker) :=
  futures <- submit_all (start_times sched) _is_valid_ticker tickers ;;
  ret (fold_left collect_valid (as_completed (completion_times sched) futures) []).

(** *** MarketDataProcessor *)

Definition fetch_intraday_data (self : MarketDataProcessor) (t : ticker) : Call frame :=
  r <- history (Bars t (start_time self) (end_time self) Config.TIMEOUT) ;;
  ret (match r with
       | Data data => data
       | Failure => []
       end).

(** *** FinancialAnalytics *)

(** The dictionary [_process_single_ticker] returns. *)
Record result : Type := mk_result {
  Ticker : ticker;
  Current_Price : num;
  Daily_Return : num;
  Volatility : num;
  Risk_Adj_Return : num;
  Z_Score : num
}.

(** The [try] block of [_process_single_ticker]; [None] is its [except]
    branch. *)
Definition compute_metrics (t : ticker) (data : frame) : option result :=
  let returns := dropna (pct_change data) in
  let volatility := pandas_std returns in
  match iloc_last data, iloc_first data with
  | Some current_price, Some open_price =>
      let daily_return_pct :=
        mul (div (sub current_price open_price) open_price) hundred in
      let risk_adj_return :=
        if neqb volatility zero then div daily_return_pct volatility else zero in
      let market_returns := filter (fun r => negb (is_nan r)) returns in
      let market_mean := np_mean market_returns in
      let market_std := np_std market_returns in
      let z_score :=
        if neqb market_std zero
        then div (sub daily_return_pct market_mean) market_std
        else zero in
      Some (mk_result t current_price daily_return_pct volatility
              risk_adj_return z_score)
  | _, _ => None
  end.

Definition _process_single_ticker (self : MarketDataProcessor) (t : ticker)
  : Call (option result) :=
  data <- fetch_intraday_data self t ;;
  if (length data <? Config.MIN_DATA_POINTS)%nat then ret None
  else ret (compute_metrics t data).

Definition _get_nse_symbols : list string :=
  ["RELIANCE"; "TCS"; "HDFCBANK"; "INFY"; "HINDUNILVR";
   "ICICIBANK"; "KOTAKBANK"; "BHARTIARTL"; "LT"; "SBIN"]%string.

Definition _get_bse_symbols : list string :=
  ["TATASTEEL"; "ONGC"; "ITC"; "SBIN"; "AXISBANK";
   "MARUTI"; "NTPC"; "SUNPHARMA"; "WIPRO"; "DRREDDY"]%string.

(** The first loop of [process_market]. *)
Definition all_tickers_of (exchanges : list string) : list ticker :=
  flat_map
    (fun exchange =>
       if String.eqb exchange "NSE"
       then map (fun t => t ++ ".NS")%string _get_nse_symbols
       else if String.eqb exchange "BSE"
       then map (fun t => t ++ ".BO")%string _get_bse_symbols
       else [])
    exchanges.

(** The body of the [as_completed] loop of [process_market]. *)
Definition collect_result (acc : list result * list ticker)
  (f : future (option result)) : list result * list ticker :=
  match snd f with
  | Returned (Some r) => (fst acc ++ [r], snd acc)
  | Returned None => (fst acc, snd acc ++ [fst f])
  | Raised => (fst acc, snd acc ++ [fst f])
  end.

(** [process_market], from [all_tickers] on. *)
Definition process_tickers (self : MarketDataProcessor) (sched1 sched2 : schedule)
  (all_tickers : list ticker) : Call (list result * list ticker * Z) :=
  valid_tickers <- get_valid_tickers sched1 all_tickers ;;
  futures <- submit_all (start_times sched2) (_process_single_ticker self)
               valid_tickers ;;
  let (results, skipped) :=
    fold_left collect_result
      (as_completed (completion_times sched2) futures) ([], []) in
  ret (results, skipped,
       Z.of_nat (length all_tickers) - Z.of_nat (length valid_tickers)).

Definition process_market (self : MarketDataProcessor) (sched1 sched2 : schedule)
  (exchanges : list string) : Call (list result * list ticker * Z) :=
  process_tickers self sched1 sched2 (all_tickers_of exchanges).

(** *** AnalyticsReporter *)

(** The [Recommendation] column [generate_report] adds. *)
Definition generate_report (results : list result)
  : list (result * recommendation_t) :=
  map (fun r => (r, recommendation (Z_Score r) (Risk_Adj_Return r))) results.

End Pipeline.

(** ** What the provider's answers make of a ticker *)

(** Here the provider gives a request one answer, whenever it is sent. *)
Section Answers.
Context {A : Arith}.
Variable provider : request -> response.
Variable self : MarketDataProcessor.

(** The two requests about a ticker, and the value each task returns. *)
Definition probe_request (t : ticker) : request := Probe t Config.TIMEOUT.

Definition bars_request (t : ticker) : request :=
  Bars t (start_time self) (end_time self) Config.TIMEOUT.

Definition valid_ticker (t : ticker) : bool :=
  match provider (probe_request t) with
  | Data (_ :: _) => true
  | _ => false
  end.

Definition bars_of (t : ticker) : frame :=
  match provider (bars_request t) with
  | Data data => data
  | Failure => []
  end.

Definition analysis_of (t : ticker) : option result :=
  if (length (bars_of t) <? Config.MIN_DATA_POINTS)%nat then None
  else compute_metrics t (bars_of t).

Definition result_of (t : ticker) : list result :=
  match analysis_of t with Some r => [r] | None => [] end.

Definition skip_of (t : ticker) : list ticker :=
  match analysis_of t with Some _ => [] | None => [t] end.

(** What the two loops keep of a completed future, and what the first
    leaves out. *)
Definition kept (f : future bool) : list ticker :=
  match snd f with Returned true => [fst f] | _ => [] end.

Definition rejected (f : future bool) : list ticker :=
  match snd f with Returned true => [] | _ => [fst f] end.

Definition produced (f : future (option result)) : list result :=
  match snd f with Returned (Some r) => [r] | _ => [] end.

Definition dropped (f : future (option result)) : list ticker :=
  match snd f with Returned (Some _) => [] | _ => [fst f] end.

End Answers.

(** ** Sample inputs *)

(** Monday 2024-01-08 (ordinal 738893), at 08:00 and at 10:30. *)
Definition monday_0800 : datetime := mk_datetime 738893 8 0.
Definition monday_1030 : datetime := mk_datetime 738893 10 30.

Definition sample_processor : MarketDataProcessor :=
  mk_processor 738893 (mk_datetime 738893 9 15) (mk_datetime 738893 15 30).

(** A provider with data for every probe and three bars for every ticker. *)
Definition three_bars_provider (r : request) : response (A := Float64) :=
  match r with
  | Probe _ _ => Data [1%float]
  | Bars _ _ _ _ => Data [1%float; 2%float; 3%float]
  end.

(** A provider with data for every probe whose bar requests all fail. *)
Definition failing_bars_provider (r : request) : response (A := Float64) :=
  match r with
  | Probe _ _ => Data [1%float]
  | Bars _ _ _ _ => Failure
  end.

(** A provider with data for every probe and sixty bars at one price for
    every ticker. *)
Definition flat_provider (price : float) (r : request) : response (A := Float64) :=
  match r with
  | Probe _ _ => Data [price]
  | Bars _ _ _ _ => Data (repeat price 60)
  end.

(** A provider whose sixty bars are thirty at 100 and thirty at 101. *)
Definition step_provider (r : request) : response (A := Float64) :=
  match r with
  | Probe _ _ => Data [100%float]
  | Bars _ _ _ _ => Data (repeat 100%float 30 ++ repeat 101%float 30)
  end.

(** Sixty bars: two doublings, four halvings, and a flat tail. *)
Definition zigzag_bars : frame (A := Float64) :=
  [1%float; 2%float; 4%float; 2%float; 1%float; 0.5%float; 0.25%float]
  ++ repeat 0.25%float 53.

Definition zigzag_provider (r : request) : response (A := Float64) :=
  match r with
  | Probe _ _ => Data [1%float]
  | Bars _ _ _ _ => Data zigzag_bars
  end.

(** Three bars, of closes 1, 1 and 2, in exact arithmetic. *)
Definition one_one_two : frame (A := Exact) := [Some 1%R; Some 1%R; Some 2%R].



(** The schedule under which every task starts and completes in the order
    of submission. *)
Definition in_turn : schedule := mk_schedule [] [].

(** A provider with a rate limit: it answers the first thirty requests of
    a run, every bar request with sixty bars at the price 5, and fails from
    then on. *)
Definition rate_limited_provider (log : list request) (r : request)
  : response (A := Float64) :=
  if (length log <? 30)%nat then
    match r with
    | Probe _ _ => Data [5%float]
    | Bars _ _ _ _ => Data (repeat 5%float 60)
    end
  else Failure.

(** The specification's reading of session hours: 09:15 to 15:30. *)
Definition within_session_hours (now : datetime) : Prop :=
  9 * 60 + 15 <= hour_of now * 60 + minute_of now <= 15 * 60 + 30.

(** The session as the specification states it. *)
Definition session_as_specified (now : datetime) (p : MarketDataProcessor) : Prop :=
  (weekday (day_of now) < 5 /\ within_session_hours now ->
   market_day p = day_of now)
  /\ (~ (weekday (day_of now) < 5 /\ within_session_hours now) ->
      latest_weekday_at_or_before (day_of now) (market_day p))
  /\ instant (start_time p) < instant (end_time p)
  /\ day_of (start_time p) = market_day p
  /\ day_of (end_time p) = market_day p
  /\ weekday (market_day p) < 5.

(** ** The report and the main block *)

Section Report.
Context {A : Arith}.

(** A row of the report's frame: a result and its [Recommendation]. *)
Definition row : Type := (result * recommendation_t)%type.

Definition risk_of (x : row) : num := Risk_Adj_Return (fst x).

(** The order of [sort_values('Risk-Adj Return', ascending=False)] on two
    values: [a] may stand before [b] when [b] is NaN (pandas puts the
    missing values last), or when [a] is a number and is not less than
    [b]. *)
Definition ranks_before (a b : num) : bool :=
  is_nan b || (negb (is_nan a) && negb (ltb a b)).

(** [sort_values]: the rows in that order.  Among rows of equal value
    pandas leaves the order to numpy's quicksort; here they keep the order
    they had, and nothing proved below depends on it. *)
Fixpoint insert_row (x : row) (l : list row) : list row :=
  match l with
  | [] => [x]
  | y :: l' =>
      if ranks_before (risk_of x) (risk_of y) then x :: l
      else y :: insert_row x l'
  end.

Definition sort_values (rows : list row) : list row :=
  fold_right insert_row [] rows.

(** [DataFrame.head(n)]. *)
Definition head (n : nat) (rows : list row) : list row := firstn n rows.

(** What [generate_report] prints: the five counts of "Processing
    Statistics" and the rows of "Top Recommendations". *)
Record report : Type := mk_report {
  total_scanned : Z;
  valid_found : Z;
  processed : Z;
  skipped_count : Z;
  invalid_ignored : Z;
  top : list row
}.

(** [generate_report], with what it prints as its value; [None] is the
    early return after "No valid data to display". *)
Definition generate_report_printed (results : list result)
  (skipped : list ticker) (invalid_count : Z) : option report :=
  match results with
  | [] => None
  | _ :: _ =>
      let df := generate_report results in
      Some (mk_report
              (Z.of_nat (length results) + Z.of_nat (length skipped)
               + invalid_count)
              (Z.of_nat (length results) + Z.of_nat (length skipped))
              (Z.of_nat (length results))
              (Z.of_nat (length skipped))
              invalid_count
              (head 10 (sort_values df)))
  end.

(** The main block: the processor is built at the instant [now], the two
    exchanges are processed, and the report is printed.  The outer [None]
    is a walk that ran out of [fuel]. *)
Definition main (provider : list request -> request -> response) (fuel : nat)
  (now : datetime) (sched1 sched2 : schedule) : Call (option (option report)) :=
  match new_processor fuel now with
  | None => fun log => (None, log)
  | Some self =>
      fun log =>
        let '(results, skipped, invalid_count, log') :=
          process_market provider self sched1 sched2 ["NSE"; "BSE"]%string log in
        (Some (generate_report_printed results skipped invalid_count), log')
  end.

Definition row_before (a b : row) : Prop :=
  ranks_before (risk_of a) (risk_of b) = true.

End Report.

(** ** Further definitions for the facts below *)

(** The tickers one exchange name contributes (the body of the first loop
    of [process_market]). *)
Definition tickers_of_exchange (exchange : string) : list ticker :=
  if String.eqb exchange "NSE"
  then map (fun t => t ++ ".NS")%string _get_nse_symbols
  else if String.eqb exchange "BSE"
  then map (fun t => t ++ ".BO")%string _get_bse_symbols
  else [].

(** [x] is a number and is not below the number [y]. *)
Definition SFnot_below (x y : spec_float) : bool :=
  match SFcompare x y with
  | Some Lt | None => false
  | Some _ => true
  end.

(** Whether a float carries the sign bit, whatever its magnitude. *)
Definition SFsign (x : spec_float) : option bool :=
  match x with
  | S754_zero s | S754_infinity s | S754_finite s _ _ => Some s
  | S754_nan => None
  end.

(** Tuesday 2024-01-09 at 08:00. *)
Definition tuesday_0800 : datetime := mk_datetime 738894 8 0.

(** The result of a flat series at the price 5. *)
Definition flat_result : result (A := Float64) :=
  mk_result "TCS.NS"%string 5%float 0%float 0%float 0%float 0%float.

(** ** The pool: orders of completion *)

Section Pool.
Context {F : Type}.

Lemma insert_by_time_perm (p : nat * F) (l : list (nat * F)) :
  Permutation (insert_by_time p l) (p :: l).
Proof.
  induction l as [|q l IH]; cbn [insert_by_time]; [reflexivity|].
  destruct (fst q <? fst p)%nat; [|reflexivity].
  rewrite IH. apply perm_swap.
Qed.

Lemma stamp_snd (fs : list F) : forall sched, map snd (stamp sched fs) = fs.
Proof.
  induction fs as [|f fs IH]; intros sched; cbn; [reflexivity|].
  now rewrite IH.
Qed.

Lemma as_completed_perm (sched : list nat) (fs : list F) :
  Permutation (as_completed sched fs) fs.
Proof.
  unfold as_completed.
  rewrite <- (stamp_snd fs sched) at 2.
  apply Permutation_map.
  induction (stamp sched fs) as [|p l IH]; cbn; [reflexivity|].
  rewrite insert_by_time_perm. now constructor.
Qed.

Lemma stamp_app (l1 l2 : list F) :
  forall s1 s2, length s1 = length l1 ->
    stamp (s1 ++ s2) (l1 ++ l2) = stamp s1 l1 ++ stamp s2 l2.
Proof.
  induction l1 as [|f l1 IH]; intros [|k s1] s2 Hlen; cbn in *;
    try discriminate; [reflexivity|].
  now rewrite IH by lia.
Qed.

Lemma stamp_times (l : list F) :
  forall sched, stamp (map fst (stamp sched l)) l = stamp sched l.
Proof.
  induction l as [|f l IH]; intros sched; cbn; [reflexivity|].
  now rewrite IH.
Qed.

Lemma stamp_later (l : list F) :
  forall sched, length sched = length l ->
    stamp (map S sched) l = map later (stamp sched l).
Proof.
  induction l as [|f l IH]; intros [|k sched] Hlen; cbn in *;
    try discriminate; [reflexivity|].
  now rewrite IH by lia.
Qed.

Lemma insert_later (p : nat * F) (l : list (nat * F)) :
  insert_by_time (later p) (map later l) = map later (insert_by_time p l).
Proof.
  induction l as [|q l IH]; cbn [map insert_by_time]; [reflexivity|].
  change (fst (later q) <? fst (later p))%nat with (fst q <? fst p)%nat.
  destruct (fst q <? fst p)%nat; cbn [map]; [now rewrite IH|reflexivity].
Qed.

Lemma sort_later (l : list (nat * F)) :
  fold_right insert_by_time [] (map later l)
  = map later (fold_right insert_by_time [] l).
Proof.
  induction l as [|p l IH]; cbn [map fold_right]; [reflexivity|].
  now rewrite IH, insert_later.
Qed.

Lemma insert_first (x : F) (l : list (nat * F)) :
  insert_by_time (0%nat, x) l = (0%nat, x) :: l.
Proof. destruct l as [|q l]; reflexivity. Qed.

(** The future that completes at time 0, before all the others, comes
    first. *)
Lemma sort_first (x : F) (l1 l2 : list (nat * F)) :
  fold_right insert_by_time [] (map later l1 ++ (0%nat, x) :: l2)
  = (0%nat, x) :: fold_right insert_by_time [] (map later l1 ++ l2).
Proof.
  induction l1 as [|q l1 IH]; cbn [map app fold_right].
  - apply insert_first.
  - rewrite IH. reflexivity.
Qed.

(** Every order of completion is the order of some schedule. *)
Lemma as_completed_any_order (target : list F) :
  forall fs, Permutation fs target -> exists sched, as_completed sched fs = target.
Proof.
  induction target as [|x target IH]; intros fs Hperm.
  - apply Permutation_sym, Permutation_nil in Hperm. subst fs.
    now exists [].
  - assert (Hin : In x fs)
      by (apply (Permutation_in _ (Permutation_sym Hperm)); now left).
    apply in_split in Hin. destruct Hin as (l1 & l2 & ->).
    apply Permutation_sym, Permutation_cons_app_inv, Permutation_sym in Hperm.
    destruct (IH _ Hperm) as (sched & Hsched).
    set (times := map fst (stamp sched (l1 ++ l2))).
    assert (Hlen : length times = length (l1 ++ l2)).
    { unfold times. rewrite length_map, <- (length_map snd), stamp_snd.
      reflexivity. }
    exists (map S (firstn (length l1) times)
            ++ 0%nat :: map S (skipn (length l1) times)).
    unfold as_completed.
    rewrite length_app in Hlen.
    rewrite stamp_app
      by (rewrite length_map, length_firstn; lia).
    cbn [stamp hd tl].
    rewrite !stamp_later
      by (rewrite ?length_firstn, ?length_skipn; lia).
    rewrite sort_first, <- map_app, <- stamp_app, firstn_skipn
      by (rewrite length_firstn; lia).
    rewrite sort_later. unfold times. rewrite stamp_times.
    cbn [map snd]. rewrite map_map. cbn [later snd].
    f_equal. rewrite <- Hsched. unfold as_completed.
    apply map_ext. reflexivity.
Qed.

(** *** Sorting by position *)

Lemma sort_perm (l : list (nat * F)) :
  Permutation (fold_right insert_by_time [] l) l.
Proof.
  induction l as [|p l IH]; cbn [fold_right]; [reflexivity|].
  rewrite insert_by_time_perm. now constructor.
Qed.

Lemma insert_by_time_sorted (p : nat * F) (l : list (nat * F)) :
  StronglySorted (fun a b => (fst a <= fst b)%nat) l ->
  StronglySorted (fun a b => (fst a <= fst b)%nat) (insert_by_time p l).
Proof.
  induction 1 as [|q l Hsorted IH Hq]; cbn [insert_by_time].
  - constructor; constructor.
  - destruct (Nat.ltb_spec (fst q) (fst p)) as [Hlt|Hge].
    + constructor; [exact IH|].
      apply (Permutation_Forall (Permutation_sym (insert_by_time_perm p l))).
      constructor; [lia|exact Hq].
    + constructor; [now constructor|].
      constructor; [exact Hge|].
      apply (Forall_impl _ (P := fun b => (fst q <= fst b)%nat)); [|exact Hq].
      intros b Hb. lia.
Qed.

Lemma sort_sorted (l : list (nat * F)) :
  StronglySorted (fun a b => (fst a <= fst b)%nat)
    (fold_right insert_by_time [] l).
Proof.
  induction l as [|p l IH]; cbn [fold_right]; [constructor|].
  now apply insert_by_time_sorted.
Qed.

Lemma number_fst (fs : list F) :
  forall i, map fst (number i fs) = seq i (length fs).
Proof.
  induction fs as [|f fs IH]; intros i; cbn; [reflexivity|].
  now rewrite IH.
Qed.

Lemma number_snd (fs : list F) : forall i, map snd (number i fs) = fs.
Proof.
  induction fs as [|f fs IH]; intros i; cbn; [reflexivity|].
  now rewrite IH.
Qed.

(** Positions are distinct: a list sorted by position is strictly
    sorted. *)
Lemma sorted_strictly (l : list (nat * F)) :
  NoDup (map fst l) ->
  StronglySorted (fun a b => (fst a <= fst b)%nat) l ->
  StronglySorted (fun a b => (fst a < fst b)%nat) l.
Proof.
  intros Hnodup Hsorted.
  induction Hsorted as [|a l Hsorted IH Ha]; [constructor|].
  cbn [map] in Hnodup. apply NoDup_cons_iff in Hnodup.
  destruct Hnodup as [Hnotin Hnodup].
  constructor; [now apply IH|].
  rewrite Forall_forall in *. intros b Hb.
  specialize (Ha b Hb).
  assert (fst a <> fst b).
  { intros E. apply Hnotin. rewrite E. now apply in_map. }
  lia.
Qed.

Lemma strictly_sorted_unique (l1 : list (nat * F)) :
  forall l2,
    StronglySorted (fun a b => (fst a < fst b)%nat) l1 ->
    StronglySorted (fun a b => (fst a < fst b)%nat) l2 ->
    Permutation l1 l2 -> l1 = l2.
Proof.
  induction l1 as [|a l1 IH]; intros [|b l2] H1 H2 Hperm.
  - reflexivity.
  - now apply Permutation_nil in Hperm.
  - now apply Permutation_sym, Permutation_nil in Hperm.
  - apply StronglySorted_inv in H1, H2.
    destruct H1 as [H1 Ha], H2 as [H2 Hb].
    assert (E : a = b).
    { assert (Hin_a : In a (b :: l2))
        by (apply (Permutation_in _ Hperm); now left).
      assert (Hin_b : In b (a :: l1))
        by (apply (Permutation_in _ (Permutation_sym Hperm)); now left).
      destruct Hin_a as [E|Hin_a]; [now symmetry|].
      destruct Hin_b as [E|Hin_b]; [exact E|].
      rewrite Forall_forall in Ha, Hb.
      specialize (Ha b Hin_b). specialize (Hb a Hin_a). lia. }
    subst b. f_equal. apply IH; try assumption.
    now apply Permutation_cons_inv in Hperm.
Qed.

Lemma number_sorted (fs : list F) :
  forall i, StronglySorted (fun a b => (fst a < fst b)%nat) (number i fs).
Proof.
  induction fs as [|f fs IH]; intros i; cbn [number]; constructor.
  - apply IH.
  - apply Forall_forall. intros b Hb.
    apply (in_map fst) in Hb. rewrite number_fst in Hb.
    apply in_seq in Hb. cbn [fst]. lia.
Qed.

(** Sorted by position, the tasks stand in the order of submission
    again, in whatever order they started. *)
Lemma sort_restores (l : list (nat * F)) (i : nat) (fs : list F) :
  Permutation l (number i fs) ->
  fold_right insert_by_time [] l = number i fs.
Proof.
  intros Hperm.
  apply strictly_sorted_unique.
  - apply sorted_strictly; [|apply sort_sorted].
    apply (Permutation_NoDup (l := map fst (number i fs))).
    + apply Permutation_map. symmetry. now rewrite sort_perm.
    + rewrite number_fst. apply seq_NoDup.
  - apply number_sorted.
  - now rewrite sort_perm.
Qed.

(** *** Orders and maps *)

Lemma insert_by_time_map {G : Type} (h : F -> G) (p : nat * F)
  (l : list (nat * F)) :
  insert_by_time (fst p, h (snd p)) (map (fun q => (fst q, h (snd q))) l)
  = map (fun q => (fst q, h (snd q))) (insert_by_time p l).
Proof.
  induction l as [|q l IH]; cbn [map insert_by_time fst]; [reflexivity|].
  destruct (fst q <? fst p)%nat; cbn [map]; [now rewrite IH|reflexivity].
Qed.

Lemma sort_map {G : Type} (h : F -> G) (l : list (nat * F)) :
  fold_right insert_by_time [] (map (fun q => (fst q, h (snd q))) l)
  = map (fun q => (fst q, h (snd q))) (fold_right insert_by_time [] l).
Proof.
  induction l as [|p l IH]; cbn [map fold_right]; [reflexivity|].
  now rewrite IH, insert_by_time_map.
Qed.

Lemma stamp_map {G : Type} (h : F -> G) (fs : list F) :
  forall sched,
    stamp sched (map h fs) = map (fun q => (fst q, h (snd q))) (stamp sched fs).
Proof.
  induction fs as [|f fs IH]; intros sched; cbn; [reflexivity|].
  now rewrite IH.
Qed.

Lemma as_completed_map {G : Type} (h : F -> G) (sched : list nat) (fs : list F) :
  as_completed sched (map h fs) = map h (as_completed sched fs).
Proof.
  unfold as_completed. rewrite stamp_map, sort_map, !map_map. reflexivity.
Qed.

End Pool.

(** ** The pipeline, call by call, at a provider of one answer per request *)

Section PipelineFacts.
Context {A : Arith}.
Variable provider : request -> response.
Variable self : MarketDataProcessor.

Lemma _is_valid_ticker_run (t : ticker) (log : list request) :
  _is_valid_ticker (fun _ => provider) t log
  = ((valid_ticker provider) t, log ++ [probe_request t]).
Proof.
  unfold _is_valid_ticker, bind, history, ret, valid_ticker, probe_request.
  destruct (provider (Probe t Config.TIMEOUT)) as [[|c d]|]; reflexivity.
Qed.

Lemma fetch_intraday_data_run (t : ticker) (log : list request) :
  fetch_intraday_data (fun _ => provider) self t log
  = ((bars_of provider self) t, log ++ [(bars_request self) t]).
Proof. reflexivity. Qed.

Lemma _process_single_ticker_run (t : ticker) (log : list request) :
  _process_single_ticker (fun _ => provider) self t log
  = ((analysis_of provider self) t, log ++ [(bars_request self) t]).
Proof.
  unfold _process_single_ticker, bind. rewrite fetch_intraday_data_run.
  unfold analysis_of.
  destruct (length ((bars_of provider self) t) <? Config.MIN_DATA_POINTS)%nat; reflexivity.
Qed.

Lemma run_tasks_run {X : Type} (task : ticker -> Call X)
  (value : ticker -> X) (sent : ticker -> request) :
  (forall t log, task t log = (value t, log ++ [sent t])) ->
  forall started log,
    run_tasks task started log
    = (map (fun it => (fst it, (snd it, Returned (value (snd it))))) started,
       log ++ map (fun it => sent (snd it)) started).
Proof.
  intros Htask started.
  induction started as [|it started IH]; intros log; cbn [run_tasks map].
  - unfold ret. now rewrite app_nil_r.
  - unfold bind. rewrite Htask, IH. unfold ret.
    now rewrite <- app_assoc.
Qed.

(** The futures of a pool hold the values of the tasks, whatever the order
    in which the tasks started; the requests are logged in that order. *)
Lemma submit_all_run {X : Type} (task : ticker -> Call X)
  (value : ticker -> X) (sent : ticker -> request) :
  (forall t log, task t log = (value t, log ++ [sent t])) ->
  forall starts tickers log,
    submit_all starts task tickers log
    = (map (fun t => (t, Returned (value t))) tickers,
       log ++ map sent (as_completed starts tickers)).
Proof.
  intros Htask starts tickers log.
  unfold submit_all, bind. rewrite (run_tasks_run task value sent Htask).
  unfold ret. f_equal.
  - rewrite (sort_map (fun t => (t, Returned (value t)))).
    rewrite (sort_restores _ 0%nat tickers) by apply as_completed_perm.
    rewrite map_map. cbn [snd].
    rewrite <- (number_snd tickers 0%nat) at 2. now rewrite map_map.
  - f_equal. rewrite <- (number_snd tickers 0%nat) at 2.
    now rewrite as_completed_map, map_map.
Qed.

Lemma fold_collect_valid (fs : list (future bool)) :
  forall acc, fold_left collect_valid fs acc = acc ++ flat_map kept fs.
Proof.
  induction fs as [|[t [[|]|]] fs IH]; intros acc; cbn.
  - now rewrite app_nil_r.
  - rewrite IH. unfold collect_valid; cbn. now rewrite <- app_assoc.
  - now rewrite IH.
  - now rewrite IH.
Qed.

Lemma fold_collect_result (fs : list (future (option result))) :
  forall acc,
    fold_left collect_result fs acc
    = (fst acc ++ flat_map produced fs, snd acc ++ flat_map dropped fs).
Proof.
  induction fs as [|[t [[r|]|]] fs IH]; intros [rs sk]; cbn.
  - now rewrite !app_nil_r.
  - rewrite IH. unfold collect_result; cbn. now rewrite <- app_assoc.
  - rewrite IH. unfold collect_result; cbn. now rewrite <- app_assoc.
  - rewrite IH. unfold collect_result; cbn. now rewrite <- app_assoc.
Qed.

Lemma kept_submitted (tickers : list ticker) :
  flat_map kept (map (fun t => (t, Returned ((valid_ticker provider) t))) tickers)
  = filter (valid_ticker provider) tickers.
Proof.
  induction tickers as [|t ts IH]; cbn; [reflexivity|].
  rewrite IH. unfold kept; cbn. now destruct ((valid_ticker provider) t).
Qed.

Lemma produced_submitted (tickers : list ticker) :
  flat_map produced (map (fun t => (t, Returned ((analysis_of provider self) t))) tickers)
  = flat_map (result_of provider self) tickers.
Proof.
  induction tickers as [|t ts IH]; cbn; [reflexivity|].
  rewrite IH. unfold produced, result_of; cbn. now destruct ((analysis_of provider self) t).
Qed.

Lemma dropped_submitted (tickers : list ticker) :
  flat_map dropped (map (fun t => (t, Returned ((analysis_of provider self) t))) tickers)
  = flat_map (skip_of provider self) tickers.
Proof.
  induction tickers as [|t ts IH]; cbn; [reflexivity|].
  rewrite IH. unfold dropped, skip_of; cbn. now destruct ((analysis_of provider self) t).
Qed.

(** The validator returns the tickers the provider has data for, in the
    order their probes complete, after one probe per ticker, sent in the
    order the probes start. *)
Lemma get_valid_tickers_run (sched : schedule) (tickers : list ticker)
  (log : list request) :
  exists valid,
    get_valid_tickers (fun _ => provider) sched tickers log
    = (valid,
       log ++ map probe_request (as_completed (start_times sched) tickers))
    /\ Permutation valid (filter (valid_ticker provider) tickers).
Proof.
  unfold get_valid_tickers, bind.
  rewrite (submit_all_run _ (valid_ticker provider) probe_request _is_valid_ticker_run).
  unfold ret. rewrite fold_collect_valid. cbn [app].
  eexists; split; [reflexivity|].
  rewrite <- kept_submitted.
  apply Permutation_flat_map, as_completed_perm.
Qed.

(** The batch: its two lists are rearrangements of what the provider's
    answers decide, and its count is the number of failed probes. *)
Lemma process_tickers_run (sched1 sched2 : schedule) (tickers : list ticker)
  (log : list request) :
  exists valid results skipped,
    process_tickers (fun _ => provider) self sched1 sched2 tickers log
    = ((results, skipped,
        Z.of_nat (length tickers) - Z.of_nat (length valid)),
       log ++ map probe_request (as_completed (start_times sched1) tickers)
           ++ map (bars_request self) (as_completed (start_times sched2) valid))
    /\ Permutation valid (filter (valid_ticker provider) tickers)
    /\ Permutation results (flat_map (result_of provider self) (filter (valid_ticker provider) tickers))
    /\ Permutation skipped (flat_map (skip_of provider self) (filter (valid_ticker provider) tickers)).
Proof.
  destruct (get_valid_tickers_run sched1 tickers log) as (valid & Hrun & Hperm).
  unfold process_tickers, bind. rewrite Hrun.
  rewrite (submit_all_run _ (analysis_of provider self) (bars_request self) _process_single_ticker_run).
  rewrite fold_collect_result. cbn [fst snd app]. unfold ret.
  exists valid. eexists. eexists.
  split; [now rewrite <- app_assoc|].
  split; [exact Hperm|].
  split.
  - rewrite <- Hperm, <- produced_submitted.
    apply Permutation_flat_map, as_completed_perm.
  - rewrite <- Hperm, <- dropped_submitted.
    apply Permutation_flat_map, as_completed_perm.
Qed.

End PipelineFacts.

(** ** The pipeline at any provider *)

(** Here the answers may change from one call to the next. *)
Section AnyProvider.
Context {A : Arith}.
Variable provider : list request -> request -> response.
Variable self : MarketDataProcessor.

Lemma _is_valid_ticker_sends (t : ticker) (log : list request) :
  snd (_is_valid_ticker provider t log) = log ++ [probe_request t].
Proof.
  unfold _is_valid_ticker, bind, history, ret, probe_request.
  destruct (provider log (Probe t Config.TIMEOUT)) as [[|c d]|]; reflexivity.
Qed.

Lemma fetch_intraday_data_sends (t : ticker) (log : list request) :
  snd (fetch_intraday_data provider self t log) = log ++ [bars_request self t].
Proof. reflexivity. Qed.

Lemma _process_single_ticker_sends (t : ticker) (log : list request) :
  snd (_process_single_ticker provider self t log)
  = log ++ [bars_request self t].
Proof.
  unfold _process_single_ticker, bind.
  pose proof (fetch_intraday_data_sends t log) as Hsent.
  destruct (fetch_intraday_data provider self t log) as [data log1].
  cbn [snd] in Hsent. subst log1.
  destruct (length data <? Config.MIN_DATA_POINTS)%nat; reflexivity.
Qed.

(** A result carries the ticker it was computed for. *)
Lemma _process_single_ticker_names (t : ticker) (log : list request) (r : result) :
  fst (_process_single_ticker provider self t log) = Some r -> Ticker r = t.
Proof.
  unfold _process_single_ticker, bind.
  destruct (fetch_intraday_data provider self t log) as [data log1].
  destruct (length data <? Config.MIN_DATA_POINTS)%nat; unfold ret; cbn [fst];
    [discriminate|].
  unfold compute_metrics.
  destruct (iloc_last data), (iloc_first data); try discriminate.
  intros [= <-]. reflexivity.
Qed.

Lemma run_tasks_any {X : Type} (task : ticker -> Call X)
  (sent : ticker -> request) (good : ticker -> X -> Prop) :
  (forall t log, snd (task t log) = log ++ [sent t]) ->
  (forall t log, good t (fst (task t log))) ->
  forall started log,
    exists done,
      run_tasks task started log
      = (done, log ++ map (fun it => sent (snd it)) started)
      /\ map (fun p => (fst p, fst (snd p))) done = started
      /\ Forall (fun p => exists x, snd (snd p) = Returned x
                                    /\ good (fst (snd p)) x) done.
Proof.
  intros Hsent Hgood started.
  induction started as [|[i t] started IH]; intros log; cbn [run_tasks map].
  - exists []. unfold ret. rewrite app_nil_r. repeat split. constructor.
  - unfold bind. cbn [fst snd].
    specialize (Hsent t log). specialize (Hgood t log).
    destruct (task t log) as [x log1]. cbn [fst snd] in Hsent, Hgood.
    subst log1.
    destruct (IH (log ++ [sent t])) as (done & -> & Hkeys & Hdone).
    unfold ret. eexists. split; [now rewrite <- app_assoc|]. split.
    + cbn [map fst snd]. now rewrite Hkeys.
    + constructor; [|exact Hdone]. cbn [fst snd]. now exists x.
Qed.

(** The futures of a pool stand for the submitted tickers, in the order of
    submission; each holds the value its task returned. *)
Lemma submit_all_any {X : Type} (task : ticker -> Call X)
  (sent : ticker -> request) (good : ticker -> X -> Prop) :
  (forall t log, snd (task t log) = log ++ [sent t]) ->
  (forall t log, good t (fst (task t log))) ->
  forall starts tickers log,
    exists futures,
      submit_all starts task tickers log
      = (futures, log ++ map sent (as_completed starts tickers))
      /\ map fst futures = tickers
      /\ Forall (fun f => exists x, snd f = Returned x /\ good (fst f) x)
           futures.
Proof.
  intros Hsent Hgood starts tickers log.
  destruct (run_tasks_any task sent good Hsent Hgood
              (as_completed starts (number 0 tickers)) log)
    as (done & Hrun & Hkeys & Hdone).
  unfold submit_all, bind. rewrite Hrun. unfold ret.
  eexists. split; [|split].
  - f_equal. f_equal. rewrite <- (number_snd tickers 0%nat) at 2.
    now rewrite as_completed_map, map_map.
  - pose proof (sort_map (@fst ticker (outcome X)) done) as Hsort.
    rewrite Hkeys in Hsort.
    rewrite (sort_restores _ 0%nat tickers) in Hsort
      by apply as_completed_perm.
    rewrite <- (number_snd tickers 0%nat).
    rewrite Hsort, !map_map. reflexivity.
  - apply Forall_map.
    apply (Permutation_Forall (Permutation_sym (sort_perm done))).
    exact Hdone.
Qed.

(** A completed probe is kept or left out. *)
Lemma kept_or_rejected (fs : list (future bool)) :
  Permutation (flat_map kept fs ++ flat_map rejected fs) (map fst fs).
Proof.
  induction fs as [|[t o] fs IH]; cbn [flat_map map fst]; [reflexivity|].
  rewrite <- app_assoc.
  rewrite (Permutation_app_swap_app (flat_map kept fs)).
  rewrite app_assoc.
  replace (kept (t, o) ++ rejected (t, o)) with [t]
    by (unfold kept, rejected; cbn; now destruct o as [[|]|]).
  cbn [app]. now constructor.
Qed.

(** A completed analysis gives one result, of its own ticker, or one skip. *)
Lemma produced_or_dropped (fs : list (future (option result))) :
  Forall (fun f => exists x, snd f = Returned x
                             /\ forall r, x = Some r -> Ticker r = fst f) fs ->
  Permutation (map Ticker (flat_map produced fs) ++ flat_map dropped fs)
    (map fst fs).
Proof.
  induction 1 as [|[t o] fs (x & Hx & Hname) _ IH];
    cbn [flat_map map fst]; [reflexivity|].
  rewrite map_app, <- app_assoc.
  rewrite (Permutation_app_swap_app (map Ticker (flat_map produced fs))).
  rewrite app_assoc.
  replace (map Ticker (produced (t, o)) ++ dropped (t, o)) with [t].
  - cbn [app]. now constructor.
  - cbn [snd fst] in Hx, Hname. subst o.
    destruct x as [r|]; unfold produced, dropped; cbn [snd fst map app];
      [|reflexivity].
    now rewrite (Hname r eq_refl).
Qed.

Lemma get_valid_tickers_any (sched : schedule) (tickers : list ticker)
  (log : list request) :
  exists valid invalid,
    get_valid_tickers provider sched tickers log
    = (valid,
       log ++ map probe_request (as_completed (start_times sched) tickers))
    /\ Permutation tickers (valid ++ invalid).
Proof.
  destruct (submit_all_any (_is_valid_ticker provider) probe_request
              (fun _ _ => True) _is_valid_ticker_sends (fun _ _ => I)
              (start_times sched) tickers log)
    as (futures & Hrun & Hfst & _).
  unfold get_valid_tickers, bind. rewrite Hrun. unfold ret.
  rewrite fold_collect_valid. cbn [app].
  exists (flat_map kept (as_completed (completion_times sched) futures)),
    (flat_map rejected futures).
  split; [reflexivity|].
  rewrite <- Hfst, <- (kept_or_rejected futures).
  apply Permutation_app_tail, Permutation_flat_map.
  symmetry. apply as_completed_perm.
Qed.

(** The batch at any provider: the valid tickers are input tickers, and
    each gives one result, of its own name, or one skip. *)
Lemma process_tickers_any (sched1 sched2 : schedule) (tickers : list ticker)
  (log : list request) :
  exists valid invalid results skipped,
    process_tickers provider self sched1 sched2 tickers log
    = ((results, skipped,
        Z.of_nat (length tickers) - Z.of_nat (length valid)),
       log ++ map probe_request (as_completed (start_times sched1) tickers)
           ++ map (bars_request self) (as_completed (start_times sched2) valid))
    /\ Permutation tickers (valid ++ invalid)
    /\ Permutation valid (map Ticker results ++ skipped).
Proof.
  destruct (get_valid_tickers_any sched1 tickers log)
    as (valid & invalid & Hvalid & Hsplit).
  destruct (submit_all_any (_process_single_ticker provider self)
              (bars_request self)
              (fun t x => forall r, x = Some r -> Ticker r = t)
              _process_single_ticker_sends
              (fun t log r => _process_single_ticker_names t log r)
              (start_times sched2) valid
              (log ++ map probe_request
                        (as_completed (start_times sched1) tickers)))
    as (futures & Hrun & Hfst & Hgood).
  unfold process_tickers, bind. rewrite Hvalid, Hrun.
  rewrite fold_collect_result. cbn [fst snd app]. unfold ret.
  exists valid, invalid. eexists. eexists.
  split; [now rewrite <- app_assoc|].
  split; [exact Hsplit|].
  rewrite <- Hfst, <- (produced_or_dropped futures Hgood).
  apply Permutation_app.
  - apply Permutation_map, Permutation_flat_map.
    symmetry. apply as_completed_perm.
  - apply Permutation_flat_map. symmetry. apply as_completed_perm.
Qed.

(** In a list without repetition, an element of the first part is not in
    the second. *)
Lemma nodup_app_disjoint {X : Type} (l1 l2 : list X) (x : X) :
  NoDup (l1 ++ l2) -> In x l1 -> ~ In x l2.
Proof.
  induction l1 as [|y l1 IH]; cbn; [contradiction|].
  intros Hnodup [<-|Hin] Hin2.
  - apply NoDup_cons_iff in Hnodup. destruct Hnodup as [Hnotin _].
    apply Hnotin, in_or_app. now right.
  - apply NoDup_cons_iff in Hnodup. destruct Hnodup as [_ Hnodup].
    now apply (IH Hnodup Hin).
Qed.

End AnyProvider.

(** ** Accounting for the tickers *)

Section Accounting.
Context {A : Arith}.
Variable provider : request -> response.
Variable self : MarketDataProcessor.

Lemma compute_metrics_ticker (t : ticker) (data : frame) (r : result) :
  compute_metrics t data = Some r -> Ticker r = t.
Proof.
  unfold compute_metrics.
  destruct (iloc_last data), (iloc_first data); try discriminate.
  intros [= <-]. reflexivity.
Qed.

Lemma analysis_of_ticker (t : ticker) (r : result) :
  analysis_of provider self t = Some r -> Ticker r = t.
Proof.
  unfold analysis_of.
  destruct (length (bars_of provider self t) <? Config.MIN_DATA_POINTS)%nat;
    [discriminate|apply compute_metrics_ticker].
Qed.

(** A ticker that was analysed gives one result and no skip, or one skip
    and no result. *)
Lemma result_or_skip (t : ticker) :
  map Ticker (result_of provider self t) ++ skip_of provider self t = [t].
Proof.
  unfold result_of, skip_of.
  destruct (analysis_of provider self t) as [r|] eqn:E; cbn; [|reflexivity].
  now rewrite (analysis_of_ticker t r E).
Qed.

Lemma results_and_skips (l : list ticker) :
  Permutation
    (map Ticker (flat_map (result_of provider self) l)
     ++ flat_map (skip_of provider self) l) l.
Proof.
  induction l as [|t l IH]; cbn; [reflexivity|].
  rewrite map_app, <- app_assoc.
  rewrite (Permutation_app_swap_app (map Ticker (flat_map _ l))).
  rewrite app_assoc, result_or_skip. cbn. now constructor.
Qed.

Lemma in_results (l : list ticker) (t : ticker) :
  In t (map Ticker (flat_map (result_of provider self) l)) ->
  In t l /\ analysis_of provider self t <> None.
Proof.
  rewrite in_map_iff. intros (r & <- & Hr).
  apply in_flat_map in Hr. destruct Hr as (t' & Hin & Hr).
  unfold result_of in Hr.
  destruct (analysis_of provider self t') as [r'|] eqn:E; [|contradiction].
  destruct Hr as [<-|[]].
  rewrite (analysis_of_ticker t' r' E). split; [assumption|congruence].
Qed.

Lemma in_skips (l : list ticker) (t : ticker) :
  In t (flat_map (skip_of provider self) l) <->
  In t l /\ analysis_of provider self t = None.
Proof.
  rewrite in_flat_map. unfold skip_of. split.
  - intros (t' & Hin & Ht).
    destruct (analysis_of provider self t') eqn:E; [contradiction|].
    destruct Ht as [<-|[]]. now split.
  - intros (Hin & E). exists t. rewrite E. split; [assumption|now left].
Qed.

Lemma filter_split {X : Type} (f : X -> bool) (l : list X) :
  Permutation l (filter f l ++ filter (fun x => negb (f x)) l).
Proof.
  induction l as [|x l IH]; cbn; [reflexivity|].
  destruct (f x); cbn.
  - now constructor.
  - now apply Permutation_cons_app.
Qed.

End Accounting.

(** A valid input ticker whose analysis gave nothing is among the skipped
    tickers of the batch, and has no result. *)
Lemma no_analysis_is_skipped {A : Arith} (provider : request -> response)
  (self : MarketDataProcessor) (t : ticker) :
  analysis_of provider self t = None ->
  forall (sched1 sched2 : schedule) (tickers : list ticker) (log : list request),
    In t tickers -> valid_ticker provider t = true ->
    let '(results, skipped, _) :=
      fst (process_tickers (fun _ => provider) self sched1 sched2 tickers log) in
    In t skipped /\ ~ In t (map Ticker results).
Proof.
  intros Hnone sched1 sched2 tickers log Hin Hvalid.
  destruct (process_tickers_run provider self sched1 sched2 tickers log)
    as (valid & results & skipped & -> & _ & Hres & Hskip).
  cbn [fst]. split.
  - apply (Permutation_in _ (Permutation_sym Hskip)).
    apply in_skips. split; [|assumption].
    apply filter_In. now split.
  - intros Hr.
    apply (Permutation_in _ (Permutation_map Ticker Hres)) in Hr.
    apply in_results in Hr. now destruct Hr.
Qed.

(** ** Facts of the calendar *)

Lemma weekday_range (d : Z) : 0 <= weekday d < 7.
Proof. unfold weekday. apply Z.mod_pos_bound. lia. Qed.

(** Of three consecutive days, one is a weekday. *)
Lemma weekend_is_two_days (d : Z) :
  5 <= weekday (d - 1) -> 5 <= weekday (d - 2) -> weekday (d - 3) < 5.
Proof. unfold weekday. intros H1 H2. Z.to_euclidean_division_equations. lia. Qed.

(** Three candidates are enough for the loop, and what it returns is the
    latest weekday before the date of [now]. *)
Lemma walk_back_finds (now : datetime) (fuel : nat) :
  (3 <= fuel)%nat ->
  exists day,
    walk_back fuel now 1 = Some day
    /\ latest_weekday_before (day_of now) day
    /\ day_of now - 3 <= day.
Proof.
  intros Hfuel.
  destruct fuel as [|[|[|fuel]]]; try lia.
  cbn [walk_back minus_days day_of].
  destruct (Z.ltb_spec (weekday (day_of now - 1)) 5) as [H1|H1].
  { exists (day_of now - 1). unfold latest_weekday_before.
    repeat split; try lia. }
  replace (1 + 1) with 2 by lia.
  destruct (Z.ltb_spec (weekday (day_of now - 2)) 5) as [H2|H2].
  { exists (day_of now - 2). unfold latest_weekday_before.
    repeat split; try lia.
    intros d' Hd'. replace d' with (day_of now - 1) by lia. exact H1. }
  replace (2 + 1) with 3 by lia.
  pose proof (weekend_is_two_days (day_of now) H1 H2) as H3.
  destruct (Z.ltb_spec (weekday (day_of now - 3)) 5) as [_|H3']; [|lia].
  exists (day_of now - 3). unfold latest_weekday_before.
  repeat split; try lia.
  intros d' Hd'.
  assert (d' = day_of now - 1 \/ d' = day_of now - 2) as [->| ->] by lia;
    assumption.
Qed.

Lemma _get_market_day_walks (fuel : nat) (now : datetime) :
  walks_back now -> _get_market_day fuel now = walk_back fuel now 1.
Proof.
  unfold walks_back, _get_market_day. intros H.
  destruct (Z.leb_spec 5 (weekday (day_of now))),
    (Z.ltb_spec (hour_of now) 9), (Z.leb_spec 16 (hour_of now));
    cbn; try reflexivity; lia.
Qed.

Lemma _get_market_day_stays (fuel : nat) (now : datetime) :
  weekday (day_of now) < 5 -> 9 <= hour_of now < 16 ->
  _get_market_day fuel now = Some (day_of now).
Proof.
  unfold _get_market_day. intros H1 H2.
  destruct (Z.leb_spec 5 (weekday (day_of now))),
    (Z.ltb_spec (hour_of now) 9), (Z.leb_spec 16 (hour_of now));
    cbn; try reflexivity; lia.
Qed.

Lemma walks_back_dec (now : datetime) :
  walks_back now \/ (weekday (day_of now) < 5 /\ 9 <= hour_of now < 16).
Proof. unfold walks_back. lia. Qed.

(** ** Facts of binary64 *)

Lemma float_gt0_lt0_absurd (r : float) :
  PrimFloat.ltb 0 r = true -> PrimFloat.ltb r 0 = true -> False.
Proof.
  rewrite !FloatAxioms.ltb_spec. change (Prim2SF 0) with (S754_zero false).
  destruct (Prim2SF r) as [s | [|] | | [|] m e]; cbn; discriminate.
Qed.

(** [p / p] is 1 for a finite [p] other than zero. *)
Lemma div_eucl_shiftl_self (m : positive) :
  Z.div_eucl (Z.shiftl (Zpos m) 53) (Zpos m) = (9007199254740992, 0).
Proof.
  assert (H : forall a b, Z.div_eucl a b = (a / b, a mod b)).
  { intros a b. unfold Z.div, Z.modulo. now destruct (Z.div_eucl a b). }
  rewrite H, Z.shiftl_mul_pow2 by lia.
  rewrite (Z.mul_comm (Zpos m)).
  rewrite Z.div_mul, Z.mod_mul by lia.
  reflexivity.
Qed.

Lemma SFdiv_core_self (m : positive) (e : Z) :
  SFdiv_core_binary prec emax (Zpos m) e (Zpos m) e
  = (9007199254740992, -53, loc_Exact).
Proof.
  unfold SFdiv_core_binary. cbv zeta.
  rewrite !Z.sub_diag.
  change (Z.min (fexp prec emax 0) 0) with (-53).
  change (0 - -53) with 53.
  cbv iota beta.
  rewrite div_eucl_shiftl_self.
  unfold new_location. now destruct (Z.even (Zpos m)).
Qed.

Lemma float_div_self (p : float) (s : bool) (m : positive) (e : Z) :
  Prim2SF p = S754_finite s m e -> (p / p)%float = 1%float.
Proof.
  intros Hp. apply Prim2SF_inj.
  rewrite FloatAxioms.div_spec, Hp. unfold SF64div, SFdiv.
  rewrite SFdiv_core_self, xorb_nilpotent. reflexivity.
Qed.

Lemma finite_nonzero_shape (p : float) :
  PrimFloat.is_finite p = true -> PrimFloat.is_zero p = false ->
  exists s m e, Prim2SF p = S754_finite s m e.
Proof.
  unfold PrimFloat.is_finite, PrimFloat.is_nan, PrimFloat.is_infinity,
    PrimFloat.is_zero.
  rewrite !FloatAxioms.eqb_spec, FloatAxioms.abs_spec.
  change (Prim2SF infinity) with (S754_infinity false).
  change (Prim2SF PrimFloat.zero) with (S754_zero false).
  destruct (Prim2SF p) as [s|s| |s m e]; cbn; try discriminate.
  - destruct s; discriminate.
  - intros _ _. now exists s, m, e.
Qed.

(** The float of a count from 1 to [2^53 - 1] is a positive finite number:
    the conversion is exact there. *)
Lemma digits2_pos_shift (m s : positive) :
  digits2_pos (Pos.iter xO m s) = (digits2_pos m + s)%positive.
Proof.
  induction s as [|s IH] using Pos.peano_ind.
  - cbn. now rewrite Pos.add_1_r.
  - rewrite Pos.iter_succ. cbn [digits2_pos]. rewrite IH. lia.
Qed.

Lemma digits2_pos_lower (m : positive) :
  2 ^ (Zpos (digits2_pos m) - 1) <= Zpos m.
Proof.
  induction m as [m IH|m IH|]; cbn [digits2_pos]; [| |cbn; lia];
    rewrite Pos2Z.inj_succ;
    replace (Z.succ (Zpos (digits2_pos m)) - 1)
      with (Z.succ (Zpos (digits2_pos m) - 1)) by lia;
    rewrite Z.pow_succ_r by lia; lia.
Qed.

Lemma fexp_normal (x : Z) : -1021 <= x -> fexp prec emax x = x - 53.
Proof. unfold fexp, SpecFloat.emin, prec, emax. lia. Qed.

Lemma binary_round_aux_exact (mz : positive) (ez : Z) :
  Zpos (digits2_pos mz) = 53 -> -1021 <= ez <= 971 ->
  binary_round_aux prec emax false (Zpos mz) ez loc_Exact
  = S754_finite false mz ez.
Proof.
  intros Hd He.
  assert (Hshift : fexp prec emax (Zdigits2 (Zpos mz) + ez) - ez = 0).
  { cbn [Zdigits2]. rewrite Hd, fexp_normal by lia. lia. }
  unfold binary_round_aux, shr_fexp.
  rewrite Hshift.
  cbn [shr shr_record_of_loc shr_m loc_of_shr_record round_nearest_even].
  rewrite Hshift. cbn [shr shr_record_of_loc shr_m].
  replace (ez <=? emax - prec) with true; [reflexivity|].
  symmetry. apply Z.leb_le. unfold emax, prec. lia.
Qed.

Lemma binary_round_small (m : positive) :
  Zpos m < 2 ^ 53 ->
  exists m' e', binary_round prec emax false m 0 = S754_finite false m' e'.
Proof.
  intros Hm.
  pose proof (digits2_pos_lower m) as Hlow.
  assert (Hd : Zpos (digits2_pos m) <= 53).
  { destruct (Z.le_gt_cases (Zpos (digits2_pos m)) 53) as [H|H]; [exact H|].
    exfalso.
    assert (2 ^ 53 <= 2 ^ (Zpos (digits2_pos m) - 1))
      by (apply Z.pow_le_mono_r; lia).
    lia. }
  unfold binary_round.
  rewrite fexp_normal by lia. unfold shl_align.
  destruct (Zpos (digits2_pos m) + 0 - 53 - 0) as [|q|q] eqn:E; try lia.
  - eexists; eexists. apply binary_round_aux_exact; lia.
  - eexists; eexists. apply binary_round_aux_exact; [|lia].
    rewrite digits2_pos_shift. lia.
Qed.

Lemma count_shape (k : nat) :
  (0 < k)%nat -> Z.of_nat k < 2 ^ 53 ->
  exists m e, Prim2SF (of_nat (Arith := Float64) k) = S754_finite false m e.
Proof.
  intros Hk Hsmall. cbn [of_nat Float64].
  rewrite of_uint63_spec, Uint63.of_Z_spec.
  rewrite Z.mod_small by (change wB with (2 ^ 63); lia).
  destruct (Z.of_nat k) as [|m|m] eqn:E; try lia.
  cbn [binary_normalize]. now apply binary_round_small.
Qed.

Lemma float_zero_div_count (k : nat) :
  (0 < k)%nat -> Z.of_nat k < 2 ^ 53 ->
  (0 / of_nat (Arith := Float64) k)%float = 0%float.
Proof.
  intros Hk Hsmall.
  destruct (count_shape k Hk Hsmall) as (m & e & Hx).
  apply Prim2SF_inj. rewrite FloatAxioms.div_spec, Hx. reflexivity.
Qed.

(** ** Facts of the statistics *)

Lemma dropna_no_nan {A : Arith} (l : list num) :
  filter (fun r => negb (is_nan r)) (dropna l) = dropna l.
Proof. apply forallb_filter_id. unfold dropna. apply forallb_filter. Qed.

Lemma iloc_first_some {A : Arith} (data : list num) :
  (0 < length data)%nat -> exists c, iloc_first data = Some c.
Proof. destruct data as [|c data]; cbn; [lia|]. intros _. now exists c. Qed.

Lemma iloc_last_some {A : Arith} (data : list num) :
  (0 < length data)%nat -> exists c, iloc_last data = Some c.
Proof.
  intros Hlen. unfold iloc_last.
  destruct (nth_error data (length data - 1)) as [c|] eqn:E; [now exists c|].
  apply nth_error_None in E. lia.
Qed.

(** A series of one repeated finite price other than zero. *)
Lemma pct_change_from_constant (p : float) (k : nat) :
  (p / p)%float = 1%float ->
  pct_change_from (A := Float64) p (repeat p k) = repeat 0%float k.
Proof.
  intros Hp. induction k as [|k IH]; cbn [repeat pct_change_from]; [reflexivity|].
  rewrite IH. cbn [sub div one Float64]. rewrite Hp. reflexivity.
Qed.

Lemma dropna_zeros (k : nat) :
  dropna (A := Float64) (repeat 0%float k) = repeat 0%float k.
Proof.
  unfold dropna. apply forallb_filter_id.
  induction k as [|k IH]; cbn [repeat forallb]; [reflexivity|].
  now rewrite IH.
Qed.

Lemma total_zeros (k : nat) : total (A := Float64) (repeat 0%float k) = 0%float.
Proof.
  unfold total. cbn [zero Float64].
  induction k as [|k IH]; cbn [repeat fold_left]; [reflexivity|].
  exact IH.
Qed.

Lemma sq_dev_zeros (k : nat) :
  sq_dev (A := Float64) 0%float (repeat 0%float k) = repeat 0%float k.
Proof. unfold sq_dev. now rewrite map_repeat. Qed.

Lemma np_mean_zeros (k : nat) :
  (0 < k)%nat -> Z.of_nat k < 2 ^ 53 ->
  np_mean (A := Float64) (repeat 0%float k) = 0%float.
Proof.
  intros Hk Hsmall. unfold np_mean.
  rewrite total_zeros, repeat_length. cbn [div Float64].
  now apply float_zero_div_count.
Qed.

Lemma pandas_std_zeros (k : nat) :
  (1 < k)%nat -> Z.of_nat k < 2 ^ 53 ->
  pandas_std (A := Float64) (repeat 0%float k) = 0%float.
Proof.
  intros Hk Hsmall. unfold pandas_std, variance.
  rewrite np_mean_zeros, sq_dev_zeros, total_zeros, repeat_length by lia.
  cbn [div sqrt Float64].
  rewrite float_zero_div_count by lia. reflexivity.
Qed.

Lemma returns_of_constant (p : float) (n : nat) :
  (p / p)%float = 1%float ->
  dropna (A := Float64) (pct_change (repeat p (S n))) = repeat 0%float n.
Proof.
  intros Hp. cbn [repeat pct_change].
  rewrite pct_change_from_constant by assumption.
  unfold dropna at 1. cbn [filter nan is_nan Float64].
  change (negb (PrimFloat.is_nan PrimFloat.nan)) with false. cbv iota.
  apply dropna_zeros.
Qed.

(** With at least [MIN_DATA_POINTS] bars the ticker is analysed. *)
Lemma analysed {A : Arith} (provider : request -> response)
  (self : MarketDataProcessor) (t : ticker) (data : frame) (log : list request) :
  provider (Bars t (start_time self) (end_time self) Config.TIMEOUT) = Data data ->
  (Config.MIN_DATA_POINTS <= length data)%nat ->
  fst (_process_single_ticker (fun _ => provider) self t log) = compute_metrics t data.
Proof.
  intros Hdata Hlen.
  rewrite _process_single_ticker_run. cbn [fst].
  unfold analysis_of, bars_of, bars_request. rewrite Hdata.
  apply Nat.ltb_ge in Hlen. now rewrite Hlen.
Qed.

(** ** Facts of exact arithmetic *)

Section ExactFacts.
Local Open Scope R_scope.

Lemma fold_exact (l : list R) :
  forall a, fold_left (exact_lift Rplus) (map Some l) (Some a)
            = Some (fold_left Rplus l a).
Proof. induction l as [|x l IH]; intros a; cbn; [reflexivity|apply IH]. Qed.

Lemma total_exact (l : list R) : total (A := Exact) (map Some l) = Some (Rsum l).
Proof. apply fold_exact. Qed.

Lemma INR_pos_neq (n : nat) : (0 < n)%nat -> INR n <> 0.
Proof. intros H. apply not_0_INR. lia. Qed.

Lemma np_mean_exact (l : list R) :
  (0 < length l)%nat ->
  np_mean (A := Exact) (map Some l) = Some (Rsum l / INR (length l)).
Proof.
  intros Hlen. unfold np_mean. rewrite total_exact, length_map.
  cbn [div of_nat Exact exact_div].
  destruct (Req_dec_T (INR (length l)) 0) as [E|_]; [|reflexivity].
  now apply INR_pos_neq in E.
Qed.

Lemma sq_dev_exact (m : R) (l : list R) :
  sq_dev (A := Exact) (Some m) (map Some l) = map Some (Rsq_dev m l).
Proof. unfold sq_dev, Rsq_dev. rewrite !map_map. reflexivity. Qed.

Lemma variance_exact (ddof : nat) (l : list R) :
  (ddof < length l)%nat ->
  variance (A := Exact) ddof (map Some l)
  = Some (Rsum (Rsq_dev (Rsum l / INR (length l)) l) / INR (length l - ddof)).
Proof.
  intros Hlen. unfold variance.
  rewrite np_mean_exact by lia.
  rewrite sq_dev_exact, total_exact, length_map.
  cbn [div of_nat Exact exact_div].
  destruct (Req_dec_T (INR (length l - ddof)) 0) as [E|_]; [|reflexivity].
  apply INR_pos_neq in E; [contradiction|lia].
Qed.

Lemma fold_nonneg (l : list R) :
  Forall (fun x => 0 <= x) l -> forall a, 0 <= a -> 0 <= fold_left Rplus l a.
Proof.
  induction 1 as [|x l Hx _ IH]; intros a Ha; cbn; [exact Ha|].
  apply IH. lra.
Qed.

Lemma Rsum_sq_dev_nonneg (m : R) (l : list R) : 0 <= Rsum (Rsq_dev m l).
Proof.
  apply fold_nonneg; [|lra].
  unfold Rsq_dev. apply Forall_map, Forall_forall. intros x _.
  apply Rle_0_sqr.
Qed.

Lemma exact_sqrt_nonneg (x : R) :
  0 <= x -> sqrt (Arith := Exact) (Some x) = Some (R_sqrt.sqrt x).
Proof.
  intros Hx. cbn [sqrt Exact exact_sqrt].
  destruct (Rlt_dec x 0) as [H|_]; [lra|reflexivity].
Qed.

End ExactFacts.

(** In exact arithmetic [dropna] leaves defined values only. *)
Lemma dropna_exact (l : list (option R)) :
  exists returns, dropna (A := Exact) l = map Some returns.
Proof.
  unfold dropna.
  induction l as [|[a|] l (returns & IH)]; cbn [filter is_nan Exact negb].
  - now exists [].
  - exists (a :: returns). cbn [map]. f_equal. exact IH.
  - exists returns. exact IH.
Qed.

Lemma exact_neqb_pos (x : R) : (0 < x)%R -> exact_neqb (Some x) (Some 0%R) = true.
Proof.
  intros Hx. unfold exact_neqb.
  destruct (Req_dec_T x 0) as [E|_]; [lra|reflexivity].
Qed.

(** The two deviations of a sequence of at least two defined returns whose
    variance is not zero. *)
Lemma std_identity_exact (returns : list R) :
  (2 <= length returns)%nat ->
  variance (A := Exact) 0 (map Some returns) <> Some 0%R ->
  exists volatility denominator : R,
    pandas_std (A := Exact) (map Some returns) = Some volatility
    /\ np_std (A := Exact) (map Some returns) = Some denominator
    /\ (0 < denominator)%R
    /\ (volatility * volatility * INR (length returns - 1)
        = denominator * denominator * INR (length returns))%R
    /\ volatility <> denominator.
Proof.
  intros Hlen Hvar.
  set (n := length returns) in *.
  set (ssq := Rsum (Rsq_dev (Rsum returns / INR n) returns)).
  assert (Hssq : (0 <= ssq)%R) by apply Rsum_sq_dev_nonneg.
  assert (Hn : (0 < INR n)%R) by (apply lt_0_INR; lia).
  assert (Hn1 : (0 < INR (n - 1))%R) by (apply lt_0_INR; lia).
  assert (Hlt : (INR (n - 1) < INR n)%R) by (apply lt_INR; lia).
  rewrite (variance_exact 0 returns) in Hvar by lia. fold n ssq in Hvar.
  rewrite Nat.sub_0_r in Hvar.
  assert (Hpos : (0 < ssq)%R).
  { destruct Hssq as [H|H]; [exact H|]. exfalso. apply Hvar. f_equal.
    rewrite <- H. unfold Rdiv. apply Rmult_0_l. }
  assert (Hq1 : (0 < ssq / INR (n - 1))%R)
    by (apply Rdiv_lt_0_compat; assumption).
  assert (Hq0 : (0 < ssq / INR n)%R)
    by (apply Rdiv_lt_0_compat; assumption).
  exists (R_sqrt.sqrt (ssq / INR (n - 1))), (R_sqrt.sqrt (ssq / INR n)).
  split; [|split; [|split; [|split]]].
  - unfold pandas_std. rewrite (variance_exact 1 returns) by lia.
    apply exact_sqrt_nonneg. lra.
  - unfold np_std. rewrite (variance_exact 0 returns) by lia.
    fold n ssq. rewrite Nat.sub_0_r. apply exact_sqrt_nonneg. lra.
  - now apply sqrt_lt_R0.
  - rewrite !sqrt_sqrt by lra. field. split; lra.
  - apply Rgt_not_eq. apply sqrt_lt_1_alt. split; [lra|].
    unfold Rdiv. apply Rmult_lt_compat_l; [assumption|].
    apply Rinv_lt_contravar; [|assumption].
    apply Rmult_lt_0_compat; assumption.
Qed.


(** ** The statistics of the code and those of the specification *)

Section SpecFacts.
Local Open Scope R_scope.














End SpecFacts.

(** ** More facts of binary64: the order and the signs *)

Lemma SFcompare_refl (x : spec_float) :
  x <> S754_nan -> SFcompare x x = Some Eq.
Proof.
  destruct x as [s|s| |s m e]; intros H; try congruence; cbn.
  - reflexivity.
  - now destruct s.
  - rewrite Z.compare_refl, Pos.compare_cont_refl. now destruct s.
Qed.

Lemma is_nan_spec (x : float) :
  PrimFloat.is_nan x = match Prim2SF x with S754_nan => true | _ => false end.
Proof.
  unfold PrimFloat.is_nan. rewrite FloatAxioms.eqb_spec. unfold SFeqb.
  destruct (Prim2SF x) as [s|s| |s m e] eqn:E; try reflexivity;
    rewrite SFcompare_refl by discriminate; reflexivity.
Qed.

(** Case analysis on the comparisons of exponents and mantissas that
    [SFcompare] makes. *)
Ltac split_compare :=
  repeat match goal with
    | |- context [Z.compare ?a ?b] =>
        destruct (Z.compare_spec a b); cbn
    | |- context [Pos.compare_cont Eq ?a ?b] =>
        change (Pos.compare_cont Eq a b) with (Pos.compare a b);
        destruct (Pos.compare_spec a b); cbn
    end.

Lemma SFnot_below_trans (x y z : spec_float) :
  SFnot_below x y = true -> SFnot_below y z = true -> SFnot_below x z = true.
Proof.
  unfold SFnot_below.
  destruct x as [sx|sx| |sx mx ex], y as [sy|sy| |sy my ey],
    z as [sz|sz| |sz mz ez]; cbn;
    try discriminate; try reflexivity;
    try (destruct sx; try discriminate; try reflexivity);
    try (destruct sy; try discriminate; try reflexivity);
    try (destruct sz; try discriminate; try reflexivity);
    split_compare; try discriminate; try reflexivity;
    intros; exfalso; lia.
Qed.

Lemma SFnot_below_total (x y : spec_float) :
  x <> S754_nan -> y <> S754_nan ->
  SFnot_below x y = false -> SFnot_below y x = true.
Proof.
  unfold SFnot_below.
  destruct x as [sx|sx| |sx mx ex], y as [sy|sy| |sy my ey]; cbn;
    try congruence;
    try (destruct sx; try discriminate; try reflexivity);
    try (destruct sy; try discriminate; try reflexivity);
    intros _ _; split_compare; try discriminate; try reflexivity;
    intros; exfalso; lia.
Qed.

(** [ranks_before] on binary64, read on the specification of the floats. *)
Lemma ltb_not_below (a b : float) :
  Prim2SF a <> S754_nan -> Prim2SF b <> S754_nan ->
  negb (PrimFloat.ltb a b) = SFnot_below (Prim2SF a) (Prim2SF b).
Proof.
  rewrite FloatAxioms.ltb_spec. unfold SFltb, SFnot_below.
  destruct (Prim2SF a) as [sa|sa| |sa ma ea], (Prim2SF b) as [sb|sb| |sb mb eb];
    intros Ha Hb; try congruence; cbn; try reflexivity;
    try (destruct sa; reflexivity); try (destruct sb; reflexivity);
    destruct sa, sb; try reflexivity;
    destruct (ea ?= eb); try reflexivity;
    destruct (Pos.compare_cont Eq ma mb); reflexivity.
Qed.

Lemma ltb_nan (x y : float) :
  PrimFloat.is_nan x = true ->
  PrimFloat.ltb x y = false /\ PrimFloat.ltb y x = false.
Proof.
  rewrite is_nan_spec, !FloatAxioms.ltb_spec. unfold SFltb.
  destruct (Prim2SF x) as [s|s| |s m e]; try discriminate. intros _.
  split; [reflexivity|]. now destruct (Prim2SF y).
Qed.

Lemma binary_round_aux_sign (s : bool) (m e : Z) (l : location) :
  binary_round_aux prec emax s m e l = S754_nan
  \/ SFsign (binary_round_aux prec emax s m e l) = Some s.
Proof.
  unfold binary_round_aux.
  destruct (shr_fexp prec emax m e l) as [mrs' e'].
  destruct (shr_fexp prec emax _ e' loc_Exact) as [mrs'' e''].
  destruct (shr_m mrs'') as [|p|p]; [now right| |now left].
  destruct (e'' <=? emax - prec); now right.
Qed.

(** A square root is NaN, a zero, or positive. *)
Lemma sqrt_sign (v : float) :
  match Prim2SF (PrimFloat.sqrt v) with
  | S754_finite true _ _ | S754_infinity true => False
  | _ => True
  end.
Proof.
  rewrite FloatAxioms.sqrt_spec. unfold SF64sqrt, SFsqrt.
  destruct (Prim2SF v) as [s|[|]| |[|] m e]; try exact I.
  destruct (SFsqrt_core_binary prec emax (Z.pos m) e) as [[mz ez] lz].
  destruct (binary_round_aux_sign false mz ez lz) as [-> |H]; [exact I|].
  destruct (binary_round_aux prec emax false mz ez lz) as [s|s| |s m' e'];
    try exact I; cbn in H; injection H as ->; exact I.
Qed.

(** Over a square root that is not zero, a quotient above 0 has its
    numerator above 0, and a quotient below 0 has it below 0. *)
Lemma div_by_root_sign (x v : float) :
  PrimFloat.eqb (PrimFloat.sqrt v) 0 = false ->
  (PrimFloat.ltb 0 (x / PrimFloat.sqrt v) = true -> PrimFloat.ltb 0 x = true)
  /\ (PrimFloat.ltb (x / PrimFloat.sqrt v) 0 = true -> PrimFloat.ltb x 0 = true).
Proof.
  pose proof (sqrt_sign v) as Hroot.
  rewrite FloatAxioms.eqb_spec, !FloatAxioms.ltb_spec, FloatAxioms.div_spec.
  change (Prim2SF 0) with (S754_zero false).
  unfold SF64div, SFdiv, SFeqb, SFltb.
  destruct (Prim2SF (PrimFloat.sqrt v)) as [sy|[|]| |[|] my ey];
    try contradiction; cbn [SFcompare]; try discriminate; intros _;
    destruct (Prim2SF x) as [sx|sx| |sx mx ex]; cbn;
    try (split; discriminate); try (destruct sx; cbn; split; congruence).
  destruct (SFdiv_core_binary prec emax (Z.pos mx) ex (Z.pos my) ey)
    as [[mz ez] lz].
  rewrite xorb_false_r.
  destruct (binary_round_aux_sign sx mz ez lz) as [-> |H];
    [split; discriminate|].
  destruct (binary_round_aux prec emax sx mz ez lz) as [s|s| |s m' e'];
    cbn in H; try discriminate; injection H as ->; cbn;
    destruct sx; split; congruence.
Qed.

(** ** Facts of the sort *)

Section SortFacts.
Context {A : Arith}.

Hypothesis ranks_total :
  forall a b : num, ranks_before a b = false -> ranks_before b a = true.
Hypothesis ranks_trans :
  forall a b c : num,
    ranks_before a b = true -> ranks_before b c = true ->
    ranks_before a c = true.

Lemma insert_row_perm (x : row) (l : list row) :
  Permutation (insert_row x l) (x :: l).
Proof.
  induction l as [|y l IH]; cbn [insert_row]; [reflexivity|].
  destruct (ranks_before (risk_of x) (risk_of y)); [reflexivity|].
  rewrite IH. apply perm_swap.
Qed.

Lemma sort_values_perm (rows : list row) : Permutation (sort_values rows) rows.
Proof.
  induction rows as [|x rows IH]; cbn; [reflexivity|].
  rewrite insert_row_perm. now constructor.
Qed.

Lemma insert_row_sorted (x : row) (l : list row) :
  StronglySorted row_before l -> StronglySorted row_before (insert_row x l).
Proof.
  induction 1 as [|y l Hsorted IH Hall]; cbn [insert_row].
  - constructor; constructor.
  - destruct (ranks_before (risk_of x) (risk_of y)) eqn:E.
    + constructor; [now constructor|]. constructor; [exact E|].
      eapply Forall_impl; [|exact Hall].
      intros z Hz. unfold row_before in *. eapply ranks_trans; eassumption.
    + constructor; [exact IH|].
      apply (Permutation_Forall (Permutation_sym (insert_row_perm x l))).
      constructor; [|exact Hall].
      now apply ranks_total.
Qed.

Lemma sort_values_sorted (rows : list row) :
  StronglySorted row_before (sort_values rows).
Proof.
  induction rows as [|x rows IH]; cbn; [constructor|].
  now apply insert_row_sorted.
Qed.

Lemma sorted_split (l1 l2 : list row) :
  StronglySorted row_before (l1 ++ l2) ->
  StronglySorted row_before l1
  /\ forall a b, In a l1 -> In b l2 -> row_before a b.
Proof.
  induction l1 as [|x l1 IH]; cbn; intros H.
  - split; [constructor|]. intros a b [].
  - inversion H as [|? ? Hs Hall]; subst.
    destruct (IH Hs) as [Hs1 Hcross].
    apply Forall_app in Hall. destruct Hall as [Hall1 Hall2].
    split; [now constructor|].
    intros a b [<-|Ha] Hb.
    + now apply (proj1 (Forall_forall _ _) Hall2).
    + now apply Hcross.
Qed.

End SortFacts.

(** The order of the report is total and transitive on binary64. *)
Lemma ranks_before_spec (a b : float) :
  ranks_before (A := Float64) a b
  = match Prim2SF b with
    | S754_nan => true
    | _ => SFnot_below (Prim2SF a) (Prim2SF b)
    end.
Proof.
  unfold ranks_before. cbn [is_nan ltb Float64].
  rewrite !is_nan_spec.
  destruct (Prim2SF b) as [sb|sb| |sb mb eb] eqn:Eb; [| |reflexivity|];
    (destruct (Prim2SF a) as [sa|sa| |sa ma ea] eqn:Ea;
     [| |reflexivity|];
     cbn [orb negb andb];
     rewrite ltb_not_below, Ea, Eb by congruence; reflexivity).
Qed.

Lemma ranks_before_total (a b : float) :
  ranks_before (A := Float64) a b = false ->
  ranks_before (A := Float64) b a = true.
Proof.
  rewrite !ranks_before_spec.
  destruct (Prim2SF a) as [sa|sa| |sa ma ea] eqn:Ea;
    destruct (Prim2SF b) as [sb|sb| |sb mb eb] eqn:Eb;
    try discriminate; try reflexivity;
    apply SFnot_below_total; discriminate.
Qed.

Lemma ranks_before_trans (a b c : float) :
  ranks_before (A := Float64) a b = true ->
  ranks_before (A := Float64) b c = true ->
  ranks_before (A := Float64) a c = true.
Proof.
  rewrite !ranks_before_spec.
  destruct (Prim2SF c) as [sc|sc| |sc mc ec] eqn:Ec; try reflexivity;
    (destruct (Prim2SF b) as [sb|sb| |sb mb eb] eqn:Eb;
     [| |intros _ H; destruct (Prim2SF a); discriminate H|];
     apply SFnot_below_trans).
Qed.

(** ** More facts of the calendar *)

(** Whatever the fuel, a day the loop returns is a weekday, and every day
    after it up to the first candidate is a weekend day. *)
Lemma walk_back_sound (now : datetime) (fuel : nat) :
  forall delta day,
    walk_back fuel now delta = Some day ->
    weekday day < 5
    /\ day <= day_of now - delta
    /\ forall d', day < d' <= day_of now - delta -> 5 <= weekday d'.
Proof.
  induction fuel as [|fuel IH]; intros delta day; cbn [walk_back]; [discriminate|].
  cbn [minus_days day_of].
  destruct (Z.ltb_spec (weekday (day_of now - delta)) 5) as [H|H].
  - intros [= <-]. repeat split; try lia.
  - intros Hwalk. destruct (IH _ _ Hwalk) as (Hwd & Hle & Hbetween).
    repeat split; try lia.
    intros d' Hd'.
    destruct (Z.eq_dec d' (day_of now - delta)) as [->|Hne]; [exact H|].
    apply Hbetween. lia.
Qed.

Lemma _get_market_day_sound (fuel : nat) (now : datetime) (day : Z) :
  _get_market_day fuel now = Some day ->
  weekday day < 5
  /\ day <= day_of now
  /\ forall d', day < d' < day_of now -> 5 <= weekday d'.
Proof.
  destruct (walks_back_dec now) as [Hw|[Hd Hh]].
  - rewrite (_get_market_day_walks fuel now Hw). intros Hwalk.
    destruct (walk_back_sound now fuel _ _ Hwalk) as (Hwd & Hle & Hbetween).
    repeat split; try lia. intros d' Hd'. apply Hbetween. lia.
  - rewrite (_get_market_day_stays fuel now Hd Hh). intros [= <-].
    repeat split; try lia.
Qed.

(** With three candidates the processor is built, on the hours 09:15 and
    15:30 of its day. *)
Lemma new_processor_total (now : datetime) (fuel : nat) :
  (3 <= fuel)%nat ->
  exists self,
    new_processor fuel now = Some self
    /\ start_time self = mk_datetime (market_day self) 9 15
    /\ end_time self = mk_datetime (market_day self) 15 30.
Proof.
  intros Hfuel. unfold new_processor.
  destruct (walks_back_dec now) as [Hw|[Hd Hh]].
  - destruct (walk_back_finds now fuel Hfuel) as (day & Hday & _).
    rewrite (_get_market_day_walks fuel now Hw), Hday.
    eexists. repeat split.
  - rewrite (_get_market_day_stays fuel now Hd Hh).
    eexists. repeat split.
Qed.

(** ** More facts of the pipeline *)

Section MoreAccounting.
Context {A : Arith}.
Variable provider : request -> response.
Variable self : MarketDataProcessor.

Lemma valid_ticker_spec (t : ticker) :
  valid_ticker provider t = true
  <-> exists c d, provider (Probe t Config.TIMEOUT) = Data (c :: d).
Proof.
  unfold valid_ticker, probe_request.
  destruct (provider (Probe t Config.TIMEOUT)) as [[|c d]|]; split;
    try discriminate; try (intros (c' & d' & [=])).
  - intros _. now exists c, d.
  - reflexivity.
Qed.

Lemma bars_of_fetch (t : ticker) (log : list request) :
  fst (fetch_intraday_data (fun _ => provider) self t log) = bars_of provider self t.
Proof. now rewrite fetch_intraday_data_run. Qed.

(** A frame with a row in it always gives a result: the [except] branch of
    [_process_single_ticker] is not taken. *)
Lemma compute_metrics_some (t : ticker) (data : frame) :
  (0 < length data)%nat -> exists r, compute_metrics t data = Some r.
Proof.
  intros Hlen.
  destruct (iloc_first_some data Hlen) as (c0 & Hfirst).
  destruct (iloc_last_some data Hlen) as (c1 & Hlast).
  unfold compute_metrics. rewrite Hfirst, Hlast. eexists; reflexivity.
Qed.

Lemma analysis_of_none (t : ticker) :
  analysis_of provider self t = None
  <-> (length (bars_of provider self t) < Config.MIN_DATA_POINTS)%nat.
Proof.
  unfold analysis_of.
  destruct (Nat.ltb_spec (length (bars_of provider self t)) Config.MIN_DATA_POINTS)
    as [H|H]; split; try reflexivity; try (intros; assumption).
  - destruct (compute_metrics_some t (bars_of provider self t)) as (r & ->);
      [unfold Config.MIN_DATA_POINTS in H; lia|discriminate].
  - lia.
Qed.

Lemma in_results_iff (l : list ticker) (t : ticker) :
  In t (map Ticker (flat_map (result_of provider self) l))
  <-> In t l /\ analysis_of provider self t <> None.
Proof.
  split; [apply in_results|].
  intros (Hin & Hsome).
  destruct (analysis_of provider self t) as [r|] eqn:E; [|congruence].
  apply in_map_iff. exists r. split; [now apply (analysis_of_ticker provider self)|].
  apply in_flat_map. exists t. split; [assumption|].
  unfold result_of. rewrite E. now left.
Qed.

End MoreAccounting.

(** What [_process_single_ticker] returned was computed from the fetched
    frame. *)
Lemma processed_from_frame {A : Arith} (provider : request -> response)
  (self : MarketDataProcessor) (t : ticker) (log : list request) (r : result) :
  fst (_process_single_ticker (fun _ => provider) self t log) = Some r ->
  compute_metrics t (bars_of provider self t) = Some r.
Proof.
  rewrite _process_single_ticker_run. cbn [fst]. unfold analysis_of.
  destruct (length (bars_of provider self t) <? Config.MIN_DATA_POINTS)%nat;
    [discriminate|trivial].
Qed.

Lemma generate_report_length {A : Arith} (results : list result) :
  length (generate_report results) = length results.
Proof. unfold generate_report. apply length_map. Qed.

Lemma np_std_zeros (k : nat) :
  (0 < k)%nat -> Z.of_nat k < 2 ^ 53 ->
  np_std (A := Float64) (repeat 0%float k) = 0%float.
Proof.
  intros Hk Hsmall. unfold np_std, variance.
  rewrite np_mean_zeros, sq_dev_zeros, total_zeros, repeat_length, Nat.sub_0_r
    by lia.
  cbn [div sqrt Float64].
  rewrite float_zero_div_count by lia. reflexivity.
Qed.

(** The volatility and the risk-adjusted return of a result. *)
Lemma compute_metrics_risk {A : Arith} (t : ticker) (data : frame) (r : result) :
  compute_metrics t data = Some r ->
  Volatility r = pandas_std (dropna (pct_change data))
  /\ Risk_Adj_Return r
     = if neqb (Volatility r) zero then div (Daily_Return r) (Volatility r)
       else zero.
Proof.
  unfold compute_metrics.
  destruct (iloc_last data), (iloc_first data); try discriminate.
  intros [= <-]. split; reflexivity.
Qed.

(** What a Buy and an Avoid say of the two metrics. *)
Lemma recommendation_conditions {A : Arith} (z r : num) :
  match recommendation z r with
  | Buy => ltb one z = true /\ ltb zero r = true
  | Avoid => ltb z (opp one) = true /\ ltb r zero = true
  | Neutral => True
  end.
Proof.
  unfold recommendation.
  destruct (ltb one z), (ltb zero r), (ltb z (opp one)), (ltb r zero); cbn;
    auto.
Qed.

(** ** Facts of the ticker universe *)

Lemma all_tickers_of_flat (exchanges : list string) :
  all_tickers_of exchanges = flat_map tickers_of_exchange exchanges.
Proof. reflexivity. Qed.

Lemma tickers_of_exchange_length (exchange : string) :
  length (tickers_of_exchange exchange)
  = if String.eqb exchange "NSE" || String.eqb exchange "BSE" then 10%nat
    else 0%nat.
Proof.
  unfold tickers_of_exchange.
  destruct (String.eqb exchange "NSE"), (String.eqb exchange "BSE");
    reflexivity.
Qed.

Lemma tickers_of_exchange_nodup (exchange : string) :
  NoDup (tickers_of_exchange exchange).
Proof.
  unfold tickers_of_exchange.
  destruct (String.eqb exchange "NSE"); [|destruct (String.eqb exchange "BSE")];
    cbn; repeat constructor; cbn; intros H; decompose [or] H;
    try discriminate; assumption.
Qed.

Lemma tickers_of_exchange_disjoint (e1 e2 : string) (t : ticker) :
  e1 <> e2 -> In t (tickers_of_exchange e1) -> In t (tickers_of_exchange e2) ->
  False.
Proof.
  unfold tickers_of_exchange. intros Hne.
  destruct (String.eqb_spec e1 "NSE") as [->|H1];
    destruct (String.eqb_spec e2 "NSE") as [->|H2]; try congruence;
    try (destruct (String.eqb_spec e1 "BSE") as [->|H1']);
    try (destruct (String.eqb_spec e2 "BSE") as [->|H2']);
    try congruence; cbn; try tauto;
    intros Ht1 Ht2; decompose [or] Ht1; try contradiction; subst t;
    decompose [or] Ht2; try contradiction; discriminate.
Qed.

Lemma flat_map_nodup {X Y : Type} (f : X -> list Y) (l : list X) :
  (forall x, NoDup (f x)) ->
  (forall x1 x2 y, x1 <> x2 -> In y (f x1) -> In y (f x2) -> False) ->
  NoDup l -> NoDup (flat_map f l).
Proof.
  intros Heach Hdisjoint. induction 1 as [|x l Hnotin Hnodup IH]; cbn.
  - constructor.
  - apply NoDup_app; [apply Heach|exact IH|].
    intros y Hy Hy'. apply in_flat_map in Hy'. destruct Hy' as (x' & Hx' & Hy').
    apply (Hdisjoint x x' y); try assumption.
    intros ->. contradiction.
Qed.

Lemma all_tickers_of_unknown (exchanges : list string) :
  (forall e, In e exchanges -> e <> "NSE"%string /\ e <> "BSE"%string) ->
  all_tickers_of exchanges = [].
Proof.
  rewrite all_tickers_of_flat.
  induction exchanges as [|e l IH]; intros H; [reflexivity|].
  cbn [flat_map]. rewrite IH by (intros e' He'; apply H; now right).
  destruct (H e (or_introl eq_refl)) as [Hn Hb].
  unfold tickers_of_exchange.
  apply String.eqb_neq in Hn, Hb. now rewrite Hn, Hb.
Qed.

(** ** Theorems *)

(** A theorem that takes a provider of type [request -> response] is about
    a provider that answers a request alike whenever it is sent, run as
    [fun _ => provider]; a theorem that takes one of type
    [list request -> request -> response] holds whatever the provider
    answers, and whenever. *)

(** C2. The recommendation is a function of the pair (standardized score,
    risk-adjusted return) alone: it is Buy exactly when the score is above
    1 and the risk-adjusted return above 0, Avoid exactly when the score is
    below -1 and the risk-adjusted return below 0, and Neutral in every
    other case; the comparisons are strict, so the pair (1, 1) is Neutral. *)
Theorem recommendation_spec (z r : float) :
  (recommendation (A := Float64) z r = Buy <->
     PrimFloat.ltb 1 z = true /\ PrimFloat.ltb 0 r = true) /\
  (recommendation (A := Float64) z r = Avoid <->
     PrimFloat.ltb z (-1) = true /\ PrimFloat.ltb r 0 = true) /\
  (recommendation (A := Float64) z r = Neutral <->
     ~ (PrimFloat.ltb 1 z = true /\ PrimFloat.ltb 0 r = true) /\
     ~ (PrimFloat.ltb z (-1) = true /\ PrimFloat.ltb r 0 = true)) /\
  recommendation (A := Float64) 1%float 1%float = Neutral.
Proof.
  unfold recommendation; cbn [ltb one zero opp Float64].
  change (- (1))%float with (-1)%float.
  pose proof (float_gt0_lt0_absurd r) as Habs.
  destruct (PrimFloat.ltb 1 z), (PrimFloat.ltb 0 r),
    (PrimFloat.ltb z (-1)), (PrimFloat.ltb r 0); cbn;
    repeat split; intros; try discriminate; try tauto;
    try (exfalso; now apply Habs); intuition congruence.
Qed.

(** C1, as the code has it.  A run of the pipeline accounts for every
    entry of the input list exactly once, whatever the provider answers
    and in whatever order the tasks start and complete: the number of input
    tickers is the number of results plus the number of skipped tickers
    plus the invalid count; the input list is, with its repetitions, the
    tickers of the results, the skipped tickers and as many invalid
    tickers as the count says; and when no ticker is listed twice, no
    ticker is listed twice among the results and the skipped, and none is
    both in a result and among the skipped.  [process_market] is
    [process_tickers] at the tickers of its exchanges. *)
Theorem process_tickers_partition {A : Arith}
  (provider : list request -> request -> response)
  (self : MarketDataProcessor) (sched1 sched2 : schedule)
  (tickers : list ticker) (log : list request) :
  let '(results, skipped, invalid_count) :=
    fst (process_tickers provider self sched1 sched2 tickers log) in
  Z.of_nat (length tickers)
  = Z.of_nat (length results) + Z.of_nat (length skipped) + invalid_count
  /\ (exists invalid,
        Permutation tickers (map Ticker results ++ skipped ++ invalid)
        /\ invalid_count = Z.of_nat (length invalid))
  /\ (NoDup tickers ->
      NoDup (map Ticker results ++ skipped)
      /\ forall t, In t (map Ticker results) -> ~ In t skipped).
Proof.
  destruct (process_tickers_any provider self sched1 sched2 tickers log)
    as (valid & invalid & results & skipped & -> & Hsplit & Hvalid).
  cbn [fst].
  assert (Hlen : length valid = (length results + length skipped)%nat).
  { rewrite (Permutation_length Hvalid).
    now rewrite length_app, length_map. }
  assert (Hinv : (length tickers = length valid + length invalid)%nat).
  { rewrite (Permutation_length Hsplit). now rewrite length_app. }
  split; [lia|]. split; [|split].
  - exists invalid. split; [|lia].
    rewrite app_assoc, <- Hvalid. exact Hsplit.
  - apply (Permutation_NoDup Hvalid).
    apply (NoDup_app_remove_r _ invalid).
    now apply (Permutation_NoDup Hsplit).
  - intros t. apply nodup_app_disjoint.
    apply (Permutation_NoDup Hvalid).
    apply (NoDup_app_remove_r _ invalid).
    now apply (Permutation_NoDup Hsplit).
Qed.

(** At the twenty tickers of the main block, of which none is listed twice,
    and a provider that answers thirty requests and no more. *)
Lemma process_tickers_partition_witness :
  let '(results, skipped, _) :=
    fst (process_tickers rate_limited_provider sample_processor
           in_turn in_turn (all_tickers_of ["NSE"; "BSE"]%string) []) in
  NoDup (map Ticker results ++ skipped)
  /\ forall t, In t (map Ticker results) -> ~ In t skipped.
Proof.
  pose proof (process_tickers_partition rate_limited_provider sample_processor
                in_turn in_turn (all_tickers_of ["NSE"; "BSE"]%string) [])
    as H.
  destruct (fst (process_tickers rate_limited_provider sample_processor
                   in_turn in_turn (all_tickers_of ["NSE"; "BSE"]%string) []))
    as [[results skipped] invalid_count].
  apply H. rewrite all_tickers_of_flat. apply flat_map_nodup.
  - apply tickers_of_exchange_nodup.
  - apply tickers_of_exchange_disjoint.
  - repeat constructor; cbn; intuition discriminate.
Defined.

(** C1, as the specification states it, fails when a ticker is listed
    twice and the provider does not answer alike both times: with the
    exchange "NSE" named twice and a provider that answers thirty requests
    and no more, the twenty probes succeed, the first ten fetches return
    sixty bars and the last ten fail, and TCS.NS is in a result and among
    the skipped. *)
Lemma repeated_ticker_in_results_and_skipped :
  exists results skipped,
    fst (process_market rate_limited_provider sample_processor
           in_turn in_turn ["NSE"; "NSE"]%string [])
    = (results, skipped, 0)
    /\ In "TCS.NS"%string (map Ticker results)
    /\ In "TCS.NS"%string skipped
    /\ ~ (forall t, In t (map Ticker results) -> ~ In t skipped).
Proof.
  eexists. eexists. split; [vm_compute; reflexivity|].
  split; [right; left; reflexivity|].
  split; [right; left; reflexivity|].
  intros H. apply (H "TCS.NS"%string); right; left; reflexivity.
Qed.

(** C8. The outcome of a batch does not depend on the order in which the
    tasks complete: two runs against the same provider answers, under any
    two pairs of schedules (of the order in which the tasks start as of the
    order in which they complete), give the same results and the same
    skipped tickers up to order, and the same invalid count.  Every order
    of completion is the order of some schedule
    ([as_completed_any_order]). *)
Theorem process_tickers_order_independent {A : Arith}
  (provider : request -> response) (self : MarketDataProcessor)
  (sched1 sched2 sched1' sched2' : schedule)
  (tickers : list ticker) (log log' : list request) :
  let '(results, skipped, invalid_count) :=
    fst (process_tickers (fun _ => provider) self sched1 sched2 tickers log) in
  let '(results', skipped', invalid_count') :=
    fst (process_tickers (fun _ => provider) self sched1' sched2' tickers log') in
  Permutation results results'
  /\ Permutation skipped skipped'
  /\ invalid_count = invalid_count'
  /\ (forall r, In r results <-> In r results')
  /\ (forall t, In t skipped <-> In t skipped').
Proof.
  destruct (process_tickers_run provider self sched1 sched2 tickers log)
    as (valid & results & skipped & -> & Hvalid & Hres & Hskip).
  destruct (process_tickers_run provider self sched1' sched2' tickers log')
    as (valid' & results' & skipped' & -> & Hvalid' & Hres' & Hskip').
  cbn [fst].
  assert (Permutation results results') as Hr by (now rewrite Hres, Hres').
  assert (Permutation skipped skipped') as Hs by (now rewrite Hskip, Hskip').
  repeat split; try assumption.
  - now rewrite (Permutation_length Hvalid), (Permutation_length Hvalid').
  - apply Permutation_in; assumption.
  - apply Permutation_in; now symmetry.
  - apply Permutation_in; assumption.
  - apply Permutation_in; now symmetry.
Qed.

(** C3. A fetched series of fewer than [MIN_DATA_POINTS] bars is
    insufficient data, whatever its prices: [_process_single_ticker]
    returns [None], and in a batch a valid input ticker with such a series
    is among the skipped tickers and has no result. *)
Theorem short_series_is_skipped {A : Arith} (provider : request -> response)
  (self : MarketDataProcessor) (t : ticker) (data : frame) (log : list request) :
  provider (Bars t (start_time self) (end_time self) Config.TIMEOUT) = Data data ->
  (length data < Config.MIN_DATA_POINTS)%nat ->
  fst (_process_single_ticker (fun _ => provider) self t log) = None
  /\ forall (sched1 sched2 : schedule) (tickers : list ticker)
       (log' : list request),
       In t tickers -> valid_ticker provider t = true ->
       let '(results, skipped, _) :=
         fst (process_tickers (fun _ => provider) self sched1 sched2 tickers log') in
       In t skipped /\ ~ In t (map Ticker results).
Proof.
  intros Hdata Hlen.
  assert (Hnone : analysis_of provider self t = None).
  { unfold analysis_of, bars_of, bars_request. rewrite Hdata.
    apply Nat.ltb_lt in Hlen. now rewrite Hlen. }
  split.
  - now rewrite _process_single_ticker_run.
  - now apply no_analysis_is_skipped.
Qed.

(** At a provider that answers every bar request with three bars. *)
Lemma short_series_is_skipped_witness :
  fst (_process_single_ticker (fun _ => three_bars_provider) sample_processor
         "TCS.NS"%string []) = None
  /\ forall (sched1 sched2 : schedule) (tickers : list ticker)
       (log' : list request),
       In "TCS.NS"%string tickers ->
       valid_ticker three_bars_provider "TCS.NS"%string = true ->
       let '(results, skipped, _) :=
         fst (process_tickers (fun _ => three_bars_provider) sample_processor
                sched1 sched2 tickers log') in
       In "TCS.NS"%string skipped /\ ~ In "TCS.NS"%string (map Ticker results).
Proof.
  apply (short_series_is_skipped three_bars_provider sample_processor
           "TCS.NS"%string [1%float; 2%float; 3%float] []).
  - reflexivity.
  - unfold Config.MIN_DATA_POINTS; cbn [length]; lia.
Defined.

(** C7. A fetch sends the provider one request and no more, and when the
    request fails it returns the empty frame instead of raising; the empty
    frame is then insufficient data: [_process_single_ticker] returns
    [None], and in a batch the ticker is among the skipped ones while the
    batch runs to its end. *)
Theorem fetch_failure_is_insufficient_data {A : Arith}
  (provider : request -> response) (self : MarketDataProcessor)
  (t : ticker) (log : list request) :
  provider (Bars t (start_time self) (end_time self) Config.TIMEOUT) = Failure ->
  fetch_intraday_data (fun _ => provider) self t log
  = ([], log ++ [Bars t (start_time self) (end_time self) Config.TIMEOUT])
  /\ _process_single_ticker (fun _ => provider) self t log
     = (None, log ++ [Bars t (start_time self) (end_time self) Config.TIMEOUT])
  /\ forall (sched1 sched2 : schedule) (tickers : list ticker)
       (log' : list request),
       In t tickers -> valid_ticker provider t = true ->
       let '(results, skipped, _) :=
         fst (process_tickers (fun _ => provider) self sched1 sched2 tickers log') in
       In t skipped /\ ~ In t (map Ticker results).
Proof.
  intros Hfail.
  assert (Hbars : bars_of provider self t = []).
  { unfold bars_of, bars_request. now rewrite Hfail. }
  assert (Hnone : analysis_of provider self t = None).
  { unfold analysis_of. now rewrite Hbars. }
  split; [|split].
  - now rewrite fetch_intraday_data_run, Hbars.
  - now rewrite _process_single_ticker_run, Hnone.
  - now apply no_analysis_is_skipped.
Qed.

(** At a provider whose bar requests all fail. *)
Lemma fetch_failure_is_insufficient_data_witness :
  fetch_intraday_data (fun _ => failing_bars_provider) sample_processor "TCS.NS"%string []
  = ([], [] ++ [Bars "TCS.NS"%string (start_time sample_processor)
                  (end_time sample_processor) Config.TIMEOUT])
  /\ _process_single_ticker (fun _ => failing_bars_provider) sample_processor
       "TCS.NS"%string []
     = (None, [] ++ [Bars "TCS.NS"%string (start_time sample_processor)
                       (end_time sample_processor) Config.TIMEOUT])
  /\ forall (sched1 sched2 : schedule) (tickers : list ticker)
       (log' : list request),
       In "TCS.NS"%string tickers ->
       valid_ticker failing_bars_provider "TCS.NS"%string = true ->
       let '(results, skipped, _) :=
         fst (process_tickers (fun _ => failing_bars_provider) sample_processor
                sched1 sched2 tickers log') in
       In "TCS.NS"%string skipped /\ ~ In "TCS.NS"%string (map Ticker results).
Proof.
  apply (fetch_failure_is_insufficient_data failing_bars_provider
           sample_processor "TCS.NS"%string []).
  reflexivity.
Defined.

(** C9. Session resolution terminates at every instant: once the loop may
    try seven candidates, [_get_market_day] returns a day, a weekday no
    more than seven days before the date of [now], and the processor is
    built; there is no instant at which it fails. *)
Theorem session_resolution_terminates (now : datetime) (fuel : nat) :
  (7 <= fuel)%nat ->
  exists day,
    _get_market_day fuel now = Some day
    /\ weekday day < 5
    /\ day_of now - 7 <= day <= day_of now
    /\ exists p, new_processor fuel now = Some p /\ market_day p = day.
Proof.
  intros Hfuel.
  destruct (walks_back_dec now) as [Hw|[Hd Hh]].
  - destruct (walk_back_finds now fuel) as (day & Hday & Hlatest & Hlow);
      [lia|].
    exists day. unfold new_processor.
    rewrite (_get_market_day_walks fuel now Hw), Hday.
    destruct Hlatest as (Hlt & Hwd & _).
    repeat split; try lia. eexists; split; reflexivity.
  - exists (day_of now). unfold new_processor.
    rewrite (_get_market_day_stays fuel now Hd Hh).
    repeat split; try lia. eexists; split; reflexivity.
Qed.

(** On Monday 2024-01-08 at 08:00, with seven candidates allowed. *)
Lemma session_resolution_terminates_witness :
  exists day,
    _get_market_day 7 monday_0800 = Some day
    /\ weekday day < 5
    /\ day_of monday_0800 - 7 <= day <= day_of monday_0800
    /\ exists p, new_processor 7 monday_0800 = Some p /\ market_day p = day.
Proof.
  apply (session_resolution_terminates monday_0800 7). apply le_n.
Defined.

(** C5, as the code has it.  The session's date is the date of [now] when
    [now] is a weekday whose local hour is from 9 to 15; otherwise (a
    weekend, an hour before 9, or an hour from 16 on) it is the latest
    weekday strictly before the date of [now]; and always the open
    timestamp is before the close timestamp, both on the session's date,
    which is a weekday. *)
Theorem session_resolution (now : datetime) (fuel : nat) :
  (3 <= fuel)%nat ->
  exists p,
    new_processor fuel now = Some p
    /\ (weekday (day_of now) < 5 /\ 9 <= hour_of now < 16 ->
        market_day p = day_of now)
    /\ (5 <= weekday (day_of now) \/ hour_of now < 9 \/ 16 <= hour_of now ->
        latest_weekday_before (day_of now) (market_day p))
    /\ instant (start_time p) < instant (end_time p)
    /\ day_of (start_time p) = market_day p
    /\ day_of (end_time p) = market_day p
    /\ weekday (market_day p) < 5.
Proof.
  intros Hfuel.
  destruct (walks_back_dec now) as [Hw|[Hd Hh]].
  - destruct (walk_back_finds now fuel Hfuel) as (day & Hday & Hlatest & _).
    eexists. unfold new_processor.
    rewrite (_get_market_day_walks fuel now Hw), Hday.
    cbn [_get_market_hours]. split; [reflexivity|].
    cbn [market_day start_time end_time day_of].
    unfold walks_back in Hw. destruct Hlatest as (Hlt & Hwd & Hbetween).
    repeat split; try assumption; try lia.
    unfold instant; cbn; lia.
  - eexists. unfold new_processor.
    rewrite (_get_market_day_stays fuel now Hd Hh).
    cbn [_get_market_hours]. split; [reflexivity|].
    cbn [market_day start_time end_time day_of].
    repeat split; try assumption; try lia.
    unfold instant; cbn; lia.
Qed.

(** On Monday 2024-01-08 at 10:30, with three candidates allowed. *)
Lemma session_resolution_witness :
  exists p,
    new_processor 3 monday_1030 = Some p
    /\ (weekday (day_of monday_1030) < 5 /\ 9 <= hour_of monday_1030 < 16 ->
        market_day p = day_of monday_1030)
    /\ (5 <= weekday (day_of monday_1030) \/ hour_of monday_1030 < 9
        \/ 16 <= hour_of monday_1030 ->
        latest_weekday_before (day_of monday_1030) (market_day p))
    /\ instant (start_time p) < instant (end_time p)
    /\ day_of (start_time p) = market_day p
    /\ day_of (end_time p) = market_day p
    /\ weekday (market_day p) < 5.
Proof.
  apply (session_resolution monday_1030 3). apply le_n.
Defined.

(** C5, as the specification states it, fails on Monday 2024-01-08 at
    08:00: the instant is outside session hours, the latest weekday at or
    before it is that Monday, and the session resolved is Friday
    2024-01-05. *)
Lemma session_not_at_or_before_now :
  new_processor 7 monday_0800
  = Some (mk_processor 738890 (mk_datetime 738890 9 15)
            (mk_datetime 738890 15 30))
  /\ weekday (day_of monday_0800) = 0
  /\ ~ within_session_hours monday_0800
  /\ ~ session_as_specified monday_0800
         (mk_processor 738890 (mk_datetime 738890 9 15)
            (mk_datetime 738890 15 30)).
Proof.
  split; [reflexivity|]. split; [reflexivity|]. split.
  - unfold within_session_hours; cbn. lia.
  - intros (_ & Hlatest & _).
    unfold within_session_hours, latest_weekday_at_or_before in Hlatest.
    cbn in Hlatest.
    destruct Hlatest as (_ & _ & Hbetween); [lia|].
    specialize (Hbetween 738893 ltac:(lia)).
    unfold weekday in Hbetween; cbn in Hbetween. lia.
Qed.



(** In binary64, on the sixty closes 1, 2, 4, 2, 1, 0.5, 0.25, ..., 0.25,
    whose sums are exact in any order: the daily return is -75, the mean of
    the returns is 0, their deviation is the square root of 3/59, and the
    score is the one divided by the other. *)
Lemma standardized_score_binary64_sample :
  exists r,
    fst (_process_single_ticker (fun _ => zigzag_provider) sample_processor
           "TCS.NS"%string []) = Some r
    /\ Daily_Return r = (-75)%float
    /\ np_mean (dropna (pct_change zigzag_bars)) = 0%float
    /\ np_std (dropna (pct_change zigzag_bars))
       = PrimFloat.sqrt (3 / 59)%float
    /\ Z_Score r = (-75 / PrimFloat.sqrt (3 / 59))%float.
Proof.
  eexists. split; [vm_compute; reflexivity|].
  repeat split; vm_compute; reflexivity.
Qed.

(** C6, as the code has it.  For a series of at least [MIN_DATA_POINTS]
    bars, the volatility is the sample standard deviation of the return
    sequence, and the risk-adjusted return is the daily return over the
    volatility when the volatility is not 0, and 0 when it is; when the
    close price is one finite value other than zero throughout, the
    volatility is 0 and the risk-adjusted return is 0. *)
Theorem risk_adjusted_return_spec (provider : request -> response (A := Float64))
  (self : MarketDataProcessor) (t : ticker) (data : frame) (log : list request) :
  provider (Bars t (start_time self) (end_time self) Config.TIMEOUT) = Data data ->
  (Config.MIN_DATA_POINTS <= length data)%nat ->
  exists r,
    fst (_process_single_ticker (fun _ => provider) self t log) = Some r
    /\ Volatility r = pandas_std (dropna (pct_change data))
    /\ (PrimFloat.eqb (Volatility r) 0 = false ->
        Risk_Adj_Return r = (Daily_Return r / Volatility r)%float)
    /\ (PrimFloat.eqb (Volatility r) 0 = true -> Risk_Adj_Return r = 0%float)
    /\ forall price : float,
         data = repeat price (length data) ->
         PrimFloat.is_finite price = true ->
         PrimFloat.is_zero price = false ->
         Z.of_nat (length data) < 2 ^ 53 ->
         Volatility r = 0%float /\ Risk_Adj_Return r = 0%float.
Proof.
  intros Hdata Hlen.
  assert (Hpos : (0 < length data)%nat)
    by (unfold Config.MIN_DATA_POINTS in Hlen; lia).
  destruct (iloc_first_some data Hpos) as (c0 & Hfirst).
  destruct (iloc_last_some data Hpos) as (c1 & Hlast).
  rewrite (analysed provider self t data log Hdata Hlen).
  unfold compute_metrics. rewrite Hfirst, Hlast.
  eexists. split; [reflexivity|].
  cbn [Volatility Risk_Adj_Return Daily_Return neqb zero div Float64].
  split; [reflexivity|]. split; [|split].
  - intros H. now rewrite H.
  - intros H. now rewrite H.
  - intros price Hconst Hfin Hnz Hsmall.
    destruct (finite_nonzero_shape price Hfin Hnz) as (s & m & e & Hshape).
    pose proof (float_div_self price s m e Hshape) as Hone.
    assert (Hstd : pandas_std (A := Float64) (dropna (pct_change data)) = 0%float).
    { rewrite Hconst.
      destruct (length data) as [|n] eqn:En; [lia|].
      rewrite returns_of_constant by assumption.
      unfold Config.MIN_DATA_POINTS in Hlen.
      apply pandas_std_zeros; lia. }
    rewrite Hstd. split; reflexivity.
Qed.

(** At sixty bars of price 5.0. *)
Lemma risk_adjusted_return_spec_witness :
  exists r,
    fst (_process_single_ticker (fun _ => flat_provider 5%float) sample_processor
           "TCS.NS"%string []) = Some r
    /\ Volatility r = 0%float
    /\ Risk_Adj_Return r = 0%float.
Proof.
  destruct (risk_adjusted_return_spec (flat_provider 5%float) sample_processor
              "TCS.NS"%string (repeat 5%float 60) [] eq_refl
              (Nat.le_refl Config.MIN_DATA_POINTS))
    as (r & Hr & _ & _ & _ & Hconstant).
  exists r. split; [exact Hr|].
  apply (Hconstant 5%float); reflexivity.
Defined.

(** C6, as the specification states it, fails on sixty bars at the price
    0.0: every per-bar return is 0/0, a NaN that [dropna] removes, so the
    return sequence is empty and its standard deviation is NaN; the
    volatility is NaN, not 0, and so is the risk-adjusted return. *)
Lemma constant_zero_price_volatility_is_nan :
  exists r,
    fst (_process_single_ticker (fun _ => flat_provider 0%float) sample_processor
           "TCS.NS"%string []) = Some r
    /\ PrimFloat.is_nan (Volatility r) = true
    /\ PrimFloat.eqb (Volatility r) 0 = false
    /\ PrimFloat.is_nan (Risk_Adj_Return r) = true
    /\ PrimFloat.eqb (Risk_Adj_Return r) 0 = false.
Proof.
  eexists. split; [vm_compute; reflexivity|].
  repeat split; vm_compute; reflexivity.
Qed.

(** C10, in exact arithmetic.  The volatility of a result is the sample
    standard deviation (the variance with [ddof = 1]) of the return
    sequence, and the denominator of its standardized score is the
    population standard deviation ([ddof = 0]) of the same sequence; when
    the sequence has n >= 2 returns and its variance is not zero, both are
    defined, the square of the first times n - 1 is the square of the
    second times n, and the two differ. *)
Theorem sample_and_population_std (t : ticker) (data : frame (A := Exact)) :
  (2 <= length (dropna (pct_change data)))%nat ->
  variance 0 (dropna (pct_change data)) <> Some 0%R ->
  exists (r : result) (volatility denominator : R),
    compute_metrics t data = Some r
    /\ Volatility r = pandas_std (dropna (pct_change data))
    /\ Volatility r = Some volatility
    /\ np_std (dropna (pct_change data)) = Some denominator
    /\ Z_Score r
       = div (sub (Daily_Return r) (np_mean (dropna (pct_change data))))
           (np_std (dropna (pct_change data)))
    /\ (volatility * volatility * INR (length (dropna (pct_change data)) - 1)
        = denominator * denominator * INR (length (dropna (pct_change data))))%R
    /\ volatility <> denominator.
Proof.
  intros Hlen Hvar.
  assert (Hdata : (0 < length data)%nat).
  { destruct data; [cbn in Hlen; lia|cbn; lia]. }
  destruct (iloc_first_some data Hdata) as (c0 & Hfirst).
  destruct (iloc_last_some data Hdata) as (c1 & Hlast).
  destruct (dropna_exact (pct_change data)) as (returns & Hreturns).
  rewrite Hreturns in Hlen, Hvar. rewrite length_map in Hlen.
  destruct (std_identity_exact returns Hlen Hvar)
    as (v & d & Hv & Hd & Hdpos & Hid & Hneq).
  unfold compute_metrics. rewrite Hfirst, Hlast, dropna_no_nan.
  rewrite Hreturns, length_map, Hv, Hd.
  eexists; exists v, d. split; [reflexivity|].
  cbn [Volatility Z_Score Daily_Return neqb zero Exact].
  rewrite (exact_neqb_pos d Hdpos).
  repeat split; assumption.
Qed.

(** At the closes 1, 1, 2 the returns are 0 and 1. *)
Lemma sample_and_population_std_witness :
  exists (r : result) (volatility denominator : R),
    compute_metrics "TCS.NS"%string one_one_two = Some r
    /\ Volatility r = Some volatility
    /\ np_std (dropna (pct_change one_one_two)) = Some denominator
    /\ (volatility * volatility * INR (2 - 1) = denominator * denominator * INR 2)%R
    /\ volatility <> denominator.
Proof.
  assert (Hreturns : dropna (pct_change one_one_two)
                     = map Some [(1 / 1 - 1)%R; (2 / 1 - 1)%R]).
  { cbn. unfold exact_div. destruct (Req_dec_T 1 0); [lra|]. reflexivity. }
  destruct (sample_and_population_std "TCS.NS"%string one_one_two)
    as (r & v & d & Hr & _ & Hv & Hd & _ & Hid & Hneq).
  - rewrite Hreturns. cbn. lia.
  - rewrite Hreturns, (variance_exact 0) by (cbn; lia).
    unfold Rsum, Rsq_dev. cbn. intros [= H]. lra.
  - rewrite Hreturns in Hid. exists r, v, d. repeat split; assumption.
Defined.

(** C10, as stated of the program's values, fails in binary64 on the sixty
    closes 1, 2, 4, 2, 1, 0.5, 0.25, ..., 0.25: the 59 returns are 1, 1 and
    four times -0.5, then zeros; their mean is 0 and their squared
    deviations sum to 3, whatever the order of the sums.  The volatility is
    the square root of 3/58 and the denominator the square root of 3/59;
    the square of the first times 58 is 2.9999999999999996, and the square
    of the second times 59 is 3. *)
Lemma float_std_identity_fails :
  exists r,
    fst (_process_single_ticker (fun _ => zigzag_provider) sample_processor
           "TCS.NS"%string []) = Some r
    /\ length (dropna (A := Float64) (pct_change zigzag_bars)) = 59%nat
    /\ Volatility r = pandas_std (dropna (pct_change zigzag_bars))
    /\ PrimFloat.eqb (variance 0 (dropna (pct_change zigzag_bars))) 0 = false
    /\ PrimFloat.eqb
         (Volatility r * Volatility r * of_nat (Arith := Float64) (59 - 1))%float
         (np_std (dropna (pct_change zigzag_bars))
          * np_std (dropna (pct_change zigzag_bars))
          * of_nat (Arith := Float64) 59)%float
       = false.
Proof.
  eexists. split; [vm_compute; reflexivity|].
  repeat split; vm_compute; reflexivity.
Qed.

(** ** Further properties of the code *)

(** X1. The validator returns exactly the input tickers whose probe came back
    with a non-empty frame (a failed probe or an empty frame drops the
    ticker, and nothing is raised); it returns no more tickers than it was
    given and none twice if none was given twice; and it has sent one probe
    per input ticker, in the order in which the threads of the pool came to
    send them. *)
Theorem get_valid_tickers_spec {A : Arith} (provider : request -> response)
  (sched : schedule) (tickers : list ticker) (log : list request) :
  let valid := fst (get_valid_tickers (fun _ => provider) sched tickers log) in
  (forall t,
     In t valid
     <-> In t tickers
         /\ exists c d, provider (Probe t Config.TIMEOUT) = Data (c :: d))
  /\ (length valid <= length tickers)%nat
  /\ (NoDup tickers -> NoDup valid)
  /\ exists probes,
       snd (get_valid_tickers (fun _ => provider) sched tickers log)
       = log ++ probes
       /\ Permutation probes (map (fun t => Probe t Config.TIMEOUT) tickers).
Proof.
  destruct (get_valid_tickers_run provider sched tickers log)
    as (valid & -> & Hperm).
  cbn [fst snd]. split; [|split; [|split]].
  - intros t. rewrite <- valid_ticker_spec, <- filter_In. split.
    + apply Permutation_in. exact Hperm.
    + apply Permutation_in. now symmetry.
  - rewrite (Permutation_length Hperm). apply filter_length_le.
  - intros Hnodup.
    apply (Permutation_NoDup (Permutation_sym Hperm)).
    now apply NoDup_filter.
  - eexists. split; [reflexivity|].
    apply Permutation_map, as_completed_perm.
Qed.

(** X2. The tickers of a batch are ten per exchange named "NSE" or "BSE", in
    the order of the exchanges; any other name contributes no ticker and is
    no error.  When no exchange is named twice, no ticker is submitted
    twice: the symbol the two tables share is told apart by the suffix. *)
Theorem all_tickers_of_spec (exchanges : list string) :
  length (all_tickers_of exchanges)
  = (10 * length (filter (fun e => String.eqb e "NSE" || String.eqb e "BSE")
                    exchanges))%nat
  /\ (forall t,
        In t (all_tickers_of exchanges)
        <-> (In "NSE"%string exchanges
             /\ exists s, In s _get_nse_symbols /\ t = (s ++ ".NS")%string)
            \/ (In "BSE"%string exchanges
                /\ exists s, In s _get_bse_symbols /\ t = (s ++ ".BO")%string))
  /\ (NoDup exchanges -> NoDup (all_tickers_of exchanges)).
Proof.
  rewrite all_tickers_of_flat. split; [|split].
  - induction exchanges as [|e l IH]; [reflexivity|].
    cbn [flat_map filter]. rewrite length_app, IH, tickers_of_exchange_length.
    destruct (String.eqb e "NSE" || String.eqb e "BSE"); cbn [length]; lia.
  - intros t. rewrite in_flat_map. split.
    + intros (e & He & Ht). unfold tickers_of_exchange in Ht.
      destruct (String.eqb_spec e "NSE") as [->|_].
      * left. split; [exact He|]. apply in_map_iff in Ht.
        destruct Ht as (s & <- & Hs). now exists s.
      * destruct (String.eqb_spec e "BSE") as [->|_]; [|contradiction].
        right. split; [exact He|]. apply in_map_iff in Ht.
        destruct Ht as (s & <- & Hs). now exists s.
    + intros [(He & s & Hs & ->)|(He & s & Hs & ->)].
      * exists "NSE"%string. split; [exact He|].
        unfold tickers_of_exchange. cbn [String.eqb Ascii.eqb Bool.eqb].
        apply in_map_iff. now exists s.
      * exists "BSE"%string. split; [exact He|].
        unfold tickers_of_exchange.
        change (String.eqb "BSE" "NSE") with false.
        change (String.eqb "BSE" "BSE") with true. cbv iota.
        apply in_map_iff. now exists s.
  - apply flat_map_nodup.
    + apply tickers_of_exchange_nodup.
    + apply tickers_of_exchange_disjoint.
Qed.

(** X3. Exchanges that are not named "NSE" or "BSE" (a name in lower case,
    an empty list) are no error: the batch is empty, nothing is sent to the
    provider, the invalid count is 0, and the report prints no
    statistics. *)
Theorem unknown_exchanges_give_empty_batch {A : Arith}
  (provider : request -> response) (self : MarketDataProcessor)
  (sched1 sched2 : schedule) (exchanges : list string) (log : list request) :
  (forall e, In e exchanges -> e <> "NSE"%string /\ e <> "BSE"%string) ->
  process_market (fun _ => provider) self sched1 sched2 exchanges log = (([], [], 0), log)
  /\ generate_report_printed (A := A) [] [] 0 = None.
Proof.
  intros H. unfold process_market.
  rewrite (all_tickers_of_unknown exchanges H). split; reflexivity.
Qed.

Lemma unknown_exchanges_give_empty_batch_witness :
  process_market (fun _ => three_bars_provider) sample_processor in_turn in_turn
    ["nse"; "NYSE"]%string []
  = (([], [], 0), [])
  /\ generate_report_printed (A := Float64) [] [] 0 = None.
Proof.
  apply (unknown_exchanges_give_empty_batch three_bars_provider
           sample_processor in_turn in_turn ["nse"; "NYSE"]%string []).
  intros e [<-|[<-|[]]]; split; discriminate.
Defined.

(** X4. A batch sends the provider one probe per input ticker and, after all
    the probes, one bar request per valid ticker, for the session window
    of the processor; no bar request is sent for a ticker whose probe
    failed.  The order of the probes among themselves, and of the bar
    requests among themselves, is the order in which the threads of each
    pool came to send them. *)
Theorem process_tickers_requests {A : Arith} (provider : request -> response)
  (self : MarketDataProcessor) (sched1 sched2 : schedule)
  (tickers : list ticker) (log : list request) :
  exists probes fetched,
    snd (process_tickers (fun _ => provider) self sched1 sched2 tickers log)
    = log ++ probes
          ++ map (fun t => Bars t (start_time self) (end_time self)
                             Config.TIMEOUT) fetched
    /\ Permutation probes (map (fun t => Probe t Config.TIMEOUT) tickers)
    /\ Permutation fetched (filter (valid_ticker provider) tickers)
    /\ (forall t, In t fetched
                  <-> In t tickers
                      /\ exists c d,
                           provider (Probe t Config.TIMEOUT) = Data (c :: d))
    /\ (length fetched <= length tickers)%nat.
Proof.
  destruct (process_tickers_run provider self sched1 sched2 tickers log)
    as (valid & results & skipped & -> & Hvalid & _ & _).
  assert (Hfetched : Permutation (as_completed (start_times sched2) valid)
                       (filter (valid_ticker provider) tickers))
    by (now rewrite as_completed_perm).
  eexists. exists (as_completed (start_times sched2) valid).
  cbn [snd]. split; [reflexivity|].
  split; [apply Permutation_map, as_completed_perm|].
  split; [exact Hfetched|]. split.
  - intros t. rewrite <- valid_ticker_spec, <- filter_In. split.
    + apply Permutation_in. exact Hfetched.
    + apply Permutation_in. now symmetry.
  - rewrite (Permutation_length Hfetched). apply filter_length_le.
Qed.

(** X5. In a batch a valid input ticker has a result exactly when its fetch
    returned at least [MIN_DATA_POINTS] bars, and is skipped exactly when
    it returned fewer (a failed fetch returns none): the prices themselves,
    zero, infinite or NaN, never make a ticker skipped. *)
Theorem skipped_iff_short {A : Arith} (provider : request -> response)
  (self : MarketDataProcessor) (sched1 sched2 : schedule)
  (tickers : list ticker) (log : list request) (t : ticker) :
  In t tickers ->
  valid_ticker provider t = true ->
  let '(results, skipped, _) :=
    fst (process_tickers (fun _ => provider) self sched1 sched2 tickers log) in
  (In t (map Ticker results)
   <-> (Config.MIN_DATA_POINTS
        <= length (fst (fetch_intraday_data (fun _ => provider) self t [])))%nat)
  /\ (In t skipped
      <-> (length (fst (fetch_intraday_data (fun _ => provider) self t []))
           < Config.MIN_DATA_POINTS)%nat).
Proof.
  intros Hin Hvalid.
  destruct (process_tickers_run provider self sched1 sched2 tickers log)
    as (valid & results & skipped & -> & _ & Hres & Hskip).
  cbn [fst]. rewrite bars_of_fetch.
  assert (Hfilter : In t (filter (valid_ticker provider) tickers))
    by (apply filter_In; now split).
  pose proof (analysis_of_none provider self t) as Hnone.
  split.
  - transitivity (In t (map Ticker
                          (flat_map (result_of provider self)
                             (filter (valid_ticker provider) tickers)))).
    + split; apply Permutation_in;
        [apply Permutation_map; exact Hres
        |apply Permutation_map; now symmetry].
    + rewrite in_results_iff. split.
      * intros (_ & Hsome).
        destruct (Nat.le_gt_cases Config.MIN_DATA_POINTS
                    (length (bars_of provider self t))) as [H|H]; [exact H|].
        exfalso. apply Hsome. now apply Hnone.
      * intros Hlen. split; [exact Hfilter|].
        intros E. apply Hnone in E. lia.
  - transitivity (In t (flat_map (skip_of provider self)
                          (filter (valid_ticker provider) tickers))).
    + split; apply Permutation_in; [exact Hskip|now symmetry].
    + rewrite in_skips, Hnone. tauto.
Qed.

Lemma skipped_iff_short_witness :
  let '(results, skipped, _) :=
    fst (process_tickers (fun _ => three_bars_provider) sample_processor in_turn in_turn
           ["TCS.NS"%string] []) in
  (In "TCS.NS"%string (map Ticker results)
   <-> (Config.MIN_DATA_POINTS
        <= length (fst (fetch_intraday_data (fun _ => three_bars_provider)
                          sample_processor "TCS.NS"%string [])))%nat)
  /\ (In "TCS.NS"%string skipped
      <-> (length (fst (fetch_intraday_data (fun _ => three_bars_provider)
                          sample_processor "TCS.NS"%string []))
           < Config.MIN_DATA_POINTS)%nat).
Proof.
  apply (skipped_iff_short three_bars_provider sample_processor in_turn in_turn
           ["TCS.NS"%string] [] "TCS.NS"%string).
  - now left.
  - reflexivity.
Defined.

(** X6. The session day never lies ahead of [now], and never more than three
    days behind it; three days are reached on every Monday outside the
    hours 9 to 15, which resolves to the Friday before. *)
Theorem market_day_within_three_days (now : datetime) (fuel : nat) :
  (3 <= fuel)%nat ->
  exists day,
    _get_market_day fuel now = Some day
    /\ day_of now - 3 <= day <= day_of now
    /\ (weekday (day_of now) = 0 ->
        hour_of now < 9 \/ 16 <= hour_of now ->
        day = day_of now - 3 /\ weekday day = 4).
Proof.
  intros Hfuel.
  destruct (walks_back_dec now) as [Hw|[Hd Hh]].
  - destruct (walk_back_finds now fuel Hfuel) as (day & Hday & Hlatest & Hlow).
    exists day. rewrite (_get_market_day_walks fuel now Hw).
    destruct Hlatest as (Hlt & Hwd & Hbetween).
    repeat split; try assumption; try lia.
    + assert (5 <= weekday (day_of now - 1)).
      { unfold weekday in *. Z.to_euclidean_division_equations. lia. }
      assert (5 <= weekday (day_of now - 2)).
      { unfold weekday in *. Z.to_euclidean_division_equations. lia. }
      destruct (Z.eq_dec day (day_of now - 1)) as [->|]; [lia|].
      destruct (Z.eq_dec day (day_of now - 2)) as [->|]; [lia|].
      lia.
    + assert (day = day_of now - 3) as ->.
      { assert (5 <= weekday (day_of now - 1)).
        { unfold weekday in *. Z.to_euclidean_division_equations. lia. }
        assert (5 <= weekday (day_of now - 2)).
        { unfold weekday in *. Z.to_euclidean_division_equations. lia. }
        destruct (Z.eq_dec day (day_of now - 1)) as [->|]; [lia|].
        destruct (Z.eq_dec day (day_of now - 2)) as [->|]; [lia|].
        lia. }
      unfold weekday in *. Z.to_euclidean_division_equations. lia.
  - exists (day_of now). rewrite (_get_market_day_stays fuel now Hd Hh).
    repeat split; try lia.
Qed.

Lemma market_day_within_three_days_witness :
  exists day,
    _get_market_day 3 monday_0800 = Some day
    /\ day_of monday_0800 - 3 <= day <= day_of monday_0800
    /\ (weekday (day_of monday_0800) = 0 ->
        hour_of monday_0800 < 9 \/ 16 <= hour_of monday_0800 ->
        day = day_of monday_0800 - 3 /\ weekday day = 4).
Proof.
  apply (market_day_within_three_days monday_0800 3). apply le_n.
Defined.

(** X7. The session day does not go back as the date goes on: of two
    instants on different dates, the later one resolves to the same
    session day or to a later one. *)
Theorem market_day_monotone (now1 now2 : datetime) (fuel1 fuel2 : nat)
  (day1 day2 : Z) :
  _get_market_day fuel1 now1 = Some day1 ->
  _get_market_day fuel2 now2 = Some day2 ->
  day_of now1 < day_of now2 ->
  day1 <= day2.
Proof.
  intros H1 H2 Hlt.
  destruct (_get_market_day_sound fuel1 now1 day1 H1) as (Hwd1 & Hle1 & _).
  destruct (_get_market_day_sound fuel2 now2 day2 H2) as (_ & Hle2 & Hbetween).
  destruct (Z.le_gt_cases day1 day2) as [H|H]; [exact H|].
  specialize (Hbetween day1 ltac:(lia)). lia.
Qed.

Lemma market_day_monotone_witness : 738890 <= 738893.
Proof.
  apply (market_day_monotone monday_0800 tuesday_0800 3 3 738890 738893).
  - reflexivity.
  - reflexivity.
  - cbn. lia.
Defined.

(** X8. A session is the session of its own open and close timestamps:
    resolving again at either of them gives the same processor. *)
Theorem session_of_its_own_hours (fuel fuel' : nat) (now : datetime)
  (p : MarketDataProcessor) :
  new_processor fuel now = Some p ->
  new_processor fuel' (start_time p) = Some p
  /\ new_processor fuel' (end_time p) = Some p.
Proof.
  unfold new_processor at 1.
  destruct (_get_market_day fuel now) as [day|] eqn:E; [|discriminate].
  cbn [_get_market_hours]. intros [= <-].
  destruct (_get_market_day_sound fuel now day E) as (Hwd & _ & _).
  cbn [start_time end_time]. unfold new_processor.
  rewrite !_get_market_day_stays by (cbn; lia).
  split; reflexivity.
Qed.

Lemma session_of_its_own_hours_witness :
  new_processor 0 (start_time sample_processor) = Some sample_processor
  /\ new_processor 0 (end_time sample_processor) = Some sample_processor.
Proof.
  apply (session_of_its_own_hours 3 0 monday_1030 sample_processor).
  reflexivity.
Defined.

(** X9. A Buy always has a daily return above 0 and an Avoid a daily return
    below 0: the volatility is a square root, so the sign of the
    risk-adjusted return is the sign of the daily return. *)
Theorem recommendation_follows_daily_return
  (provider : request -> response (A := Float64)) (self : MarketDataProcessor)
  (t : ticker) (log : list request) (r : result) :
  fst (_process_single_ticker (fun _ => provider) self t log) = Some r ->
  (recommendation (Z_Score r) (Risk_Adj_Return r) = Buy ->
   PrimFloat.ltb 0 (Daily_Return r) = true)
  /\ (recommendation (Z_Score r) (Risk_Adj_Return r) = Avoid ->
      PrimFloat.ltb (Daily_Return r) 0 = true).
Proof.
  intros Hr. apply processed_from_frame in Hr.
  destruct (compute_metrics_risk t _ r Hr) as (Hvol & Hrisk).
  unfold pandas_std in Hvol. cbn [sqrt neqb zero div Float64] in Hvol, Hrisk.
  set (spread := variance 1 (dropna (pct_change (bars_of provider self t))))
    in Hvol.
  rewrite Hvol in Hrisk.
  pose proof (recommendation_conditions (Z_Score r) (Risk_Adj_Return r)) as Hc.
  split; intros Hrec; rewrite Hrec in Hc;
    cbn [ltb zero Float64] in Hc; destruct Hc as [_ Hsign];
    rewrite Hrisk in Hsign;
    destruct (PrimFloat.eqb (PrimFloat.sqrt spread) 0) eqn:E;
    cbn [negb] in Hsign; try discriminate Hsign;
    now apply (div_by_root_sign (Daily_Return r) spread E).
Qed.

Lemma recommendation_follows_daily_return_witness :
  exists r,
    fst (_process_single_ticker (fun _ => step_provider) sample_processor
           "TCS.NS"%string []) = Some r
    /\ recommendation (Z_Score r) (Risk_Adj_Return r) = Buy
    /\ PrimFloat.ltb 0 (Daily_Return r) = true.
Proof.
  destruct (fst (_process_single_ticker (fun _ => step_provider) sample_processor
                   "TCS.NS"%string [])) as [r|] eqn:E;
    [|vm_compute in E; discriminate].
  assert (Hbuy : recommendation (Z_Score r) (Risk_Adj_Return r) = Buy).
  { vm_compute in E. injection E as <-. vm_compute. reflexivity. }
  exists r. split; [reflexivity|]. split; [exact Hbuy|].
  exact (proj1 (recommendation_follows_daily_return step_provider
                  sample_processor "TCS.NS"%string [] r E) Hbuy).
Defined.

(** X10. Metrics that are NaN are never a Buy or an Avoid: a result whose
    standardized score or risk-adjusted return is NaN is Neutral. *)
Theorem nan_is_neutral (z r : float) :
  PrimFloat.is_nan z = true \/ PrimFloat.is_nan r = true ->
  recommendation (A := Float64) z r = Neutral.
Proof.
  unfold recommendation. cbn [ltb one zero opp Float64].
  intros [H|H].
  - destruct (ltb_nan z 1 H) as [_ ->].
    destruct (ltb_nan z (- (1)) H) as [-> _]. reflexivity.
  - destruct (ltb_nan r 0 H) as [-> ->].
    now rewrite !andb_false_r.
Qed.

Lemma nan_is_neutral_witness :
  recommendation (A := Float64) PrimFloat.nan 5%float = Neutral.
Proof. apply nan_is_neutral. left. reflexivity. Defined.

(** X11. A flat series is Neutral: for at least [MIN_DATA_POINTS] bars at one
    finite price other than zero, the standardized score is 0, as the
    risk-adjusted return is, and the report gives the row Neutral. *)
Theorem flat_series_is_neutral (provider : request -> response (A := Float64))
  (self : MarketDataProcessor) (t : ticker) (price : float) (n : nat)
  (log : list request) :
  provider (Bars t (start_time self) (end_time self) Config.TIMEOUT)
  = Data (repeat price n) ->
  (Config.MIN_DATA_POINTS <= n)%nat ->
  Z.of_nat n < 2 ^ 53 ->
  PrimFloat.is_finite price = true ->
  PrimFloat.is_zero price = false ->
  exists r,
    fst (_process_single_ticker (fun _ => provider) self t log) = Some r
    /\ Current_Price r = price
    /\ Z_Score r = 0%float
    /\ Risk_Adj_Return r = 0%float
    /\ generate_report [r] = [(r, Neutral)].
Proof.
  intros Hdata Hlen Hsmall Hfin Hnz.
  unfold Config.MIN_DATA_POINTS in Hlen.
  destruct (finite_nonzero_shape price Hfin Hnz) as (s & m & e & Hshape).
  pose proof (float_div_self price s m e Hshape) as Hone.
  rewrite (analysed provider self t (repeat price n) log Hdata)
    by (rewrite repeat_length; exact Hlen).
  destruct n as [|n]; [lia|].
  unfold compute_metrics.
  rewrite dropna_no_nan, returns_of_constant by assumption.
  rewrite pandas_std_zeros, np_std_zeros by lia.
  assert (Hlast : iloc_last (A := Float64) (repeat price (S n)) = Some price).
  { unfold iloc_last. rewrite repeat_length.
    apply nth_error_repeat. lia. }
  rewrite Hlast. cbn [iloc_first nth_error repeat].
  eexists. split; [reflexivity|].
  cbn [Current_Price Z_Score Risk_Adj_Return neqb zero Float64].
  change (negb (PrimFloat.eqb 0 0)) with false. cbv iota.
  repeat split.
Qed.

Lemma flat_series_is_neutral_witness :
  exists r,
    fst (_process_single_ticker (fun _ => flat_provider 5%float) sample_processor
           "TCS.NS"%string []) = Some r
    /\ Current_Price r = 5%float
    /\ Z_Score r = 0%float
    /\ Risk_Adj_Return r = 0%float
    /\ generate_report [r] = [(r, Neutral)].
Proof.
  apply (flat_series_is_neutral (flat_provider 5%float) sample_processor
           "TCS.NS"%string 5%float 60 []);
    [reflexivity|apply le_n|reflexivity|reflexivity|reflexivity].
Defined.

(** X12. The statistics of the report, read on the batch they come from: when
    the batch has a result, the report counts as scanned the tickers the
    batch was given and as valid those whose probe succeeded; processed,
    skipped and invalid add up to the scanned; and when the batch has no
    result the report prints none of its statistics, though every valid
    ticker was then skipped. *)
Theorem report_of_batch {A : Arith} (provider : request -> response)
  (self : MarketDataProcessor) (sched1 sched2 : schedule)
  (tickers : list ticker) (log : list request) :
  let '(results, skipped, invalid_count) :=
    fst (process_tickers (fun _ => provider) self sched1 sched2 tickers log) in
  match generate_report_printed results skipped invalid_count with
  | Some rep =>
      total_scanned rep = Z.of_nat (length tickers)
      /\ valid_found rep
         = Z.of_nat (length (filter (valid_ticker provider) tickers))
      /\ processed rep + skipped_count rep + invalid_ignored rep
         = total_scanned rep
      /\ 0 < processed rep
      /\ 0 <= invalid_ignored rep
  | None =>
      results = []
      /\ forall t, In t tickers -> valid_ticker provider t = true ->
                   In t skipped
  end.
Proof.
  destruct (process_tickers_run provider self sched1 sched2 tickers log)
    as (valid & results & skipped & -> & Hvalid & Hres & Hskip).
  cbn [fst].
  pose proof (results_and_skips provider self
                (filter (valid_ticker provider) tickers)) as Hacc.
  rewrite <- Hres, <- Hskip in Hacc.
  apply Permutation_length in Hacc. rewrite length_app, length_map in Hacc.
  pose proof (filter_length_le (valid_ticker provider) tickers) as Hle.
  rewrite (Permutation_length Hvalid).
  destruct results as [|r results]; cbn [generate_report_printed].
  - split; [reflexivity|]. intros t Hin Hv.
    apply (Permutation_in _ (Permutation_sym Hskip)).
    apply in_skips. split; [apply filter_In; now split|].
    destruct (analysis_of provider self t) as [r|] eqn:E; [|reflexivity].
    exfalso.
    assert (Hr : In t (map Ticker (flat_map (result_of provider self)
                                     (filter (valid_ticker provider) tickers)))).
    { apply in_results_iff. split; [apply filter_In; now split|congruence]. }
    apply (Permutation_in _ (Permutation_map Ticker (Permutation_sym Hres))) in Hr.
    exact Hr.
  - cbn [total_scanned valid_found processed skipped_count invalid_ignored].
    cbn [length] in *. repeat split; lia.
Qed.

(** X13. The rows under "Top Recommendations": they are the first ten rows of
    the frame (all of them when it has no more), taken in an order in which
    no row stands before a row of greater risk-adjusted return and the rows
    whose risk-adjusted return is NaN stand last; so every row left out
    ranks no better than every row shown. *)
Theorem top_recommendations (results : list (result (A := Float64)))
  (skipped : list ticker) (invalid_count : Z) (rep : report) :
  generate_report_printed results skipped invalid_count = Some rep ->
  length (top rep) = Nat.min 10 (length results)
  /\ StronglySorted
       (fun a b => ranks_before (risk_of a) (risk_of b) = true) (top rep)
  /\ (exists rest,
        Permutation (generate_report results) (top rep ++ rest)
        /\ forall a b, In a (top rep) -> In b rest ->
                       ranks_before (risk_of a) (risk_of b) = true)
  /\ ((length results <= 10)%nat ->
      Permutation (generate_report results) (top rep)).
Proof.
  intros Hrep.
  set (df := generate_report results).
  assert (Hshown : top rep = firstn 10 (sort_values df)).
  { destruct results as [|r results]; [discriminate|].
    injection Hrep as <-. reflexivity. }
  rewrite Hshown. clear Hshown Hrep.
  pose proof (sort_values_perm df) as Hperm.
  pose proof (sort_values_sorted ranks_before_total ranks_before_trans df)
    as Hsorted.
  rewrite <- (firstn_skipn 10 (sort_values df)) in Hsorted.
  apply sorted_split in Hsorted. destruct Hsorted as [Htop Hcross].
  split; [|split; [|split]].
  - rewrite length_firstn, (Permutation_length Hperm).
    f_equal. apply generate_report_length.
  - exact Htop.
  - exists (skipn 10 (sort_values df)). split.
    + rewrite firstn_skipn. now symmetry.
    + exact Hcross.
  - intros Hfew. rewrite firstn_all2; [now symmetry|].
    rewrite (Permutation_length Hperm).
    apply (Nat.le_trans _ (length results)); [|exact Hfew].
    apply Nat.eq_le_incl, generate_report_length.
Qed.

Lemma top_recommendations_witness :
  exists rep,
    generate_report_printed [flat_result] [] 0 = Some rep
    /\ length (top rep) = 1%nat.
Proof.
  eexists. split; [reflexivity|].
  apply (top_recommendations [flat_result] [] 0 _ eq_refl).
Defined.

(** X14. A run of the program, whatever the provider answers: at any instant,
    once the walk may try three candidates, the processor is built and the
    run ends with a report or with "No valid data to display"; it has
    probed each of the twenty listed tickers once and then requested bars
    for at most twenty of them, none twice, each for 09:15 to 15:30 of the
    session day; and a report that is shown counts twenty tickers
    scanned. *)
Theorem main_run {A : Arith} (provider : list request -> request -> response)
  (fuel : nat) (now : datetime) (sched1 sched2 : schedule)
  (log : list request) :
  (3 <= fuel)%nat ->
  exists self out probes fetched,
    new_processor fuel now = Some self
    /\ main provider fuel now sched1 sched2 log
       = (Some out,
          log ++ probes
              ++ map (fun t => Bars t (mk_datetime (market_day self) 9 15)
                                 (mk_datetime (market_day self) 15 30)
                                 Config.TIMEOUT) fetched)
    /\ Permutation probes
         (map (fun t => Probe t Config.TIMEOUT)
            (all_tickers_of ["NSE"; "BSE"]%string))
    /\ length (all_tickers_of ["NSE"; "BSE"]%string) = 20%nat
    /\ (length fetched <= 20)%nat
    /\ NoDup fetched
    /\ (forall t, In t fetched -> In t (all_tickers_of ["NSE"; "BSE"]%string))
    /\ match out with
       | Some rep => total_scanned rep = 20
       | None => True
       end.
Proof.
  intros Hfuel.
  destruct (new_processor_total now fuel Hfuel) as (self & Hself & Hopen & Hclose).
  unfold main, process_market. rewrite Hself.
  destruct (process_tickers_any provider self sched1 sched2
              (all_tickers_of ["NSE"; "BSE"]%string) log)
    as (valid & invalid & results & skipped & Hrun & Hsplit & Hvalid).
  rewrite Hrun. unfold bars_request, probe_request. rewrite Hopen, Hclose.
  assert (Hnodup : NoDup (all_tickers_of ["NSE"; "BSE"]%string)).
  { rewrite all_tickers_of_flat. apply flat_map_nodup.
    - apply tickers_of_exchange_nodup.
    - apply tickers_of_exchange_disjoint.
    - repeat constructor; cbn; intuition discriminate. }
  assert (Hlen : length (all_tickers_of ["NSE"; "BSE"]%string) = 20%nat)
    by reflexivity.
  pose proof (Permutation_length Hsplit) as Hcount.
  rewrite length_app, Hlen in Hcount.
  pose proof (as_completed_perm (start_times sched2) valid) as Hfetched.
  exists self, (generate_report_printed results skipped
                  (Z.of_nat (length (all_tickers_of ["NSE"; "BSE"]%string))
                   - Z.of_nat (length valid))).
  eexists. exists (as_completed (start_times sched2) valid).
  split; [reflexivity|]. split; [reflexivity|].
  split; [apply Permutation_map, as_completed_perm|].
  split; [exact Hlen|].
  split; [rewrite (Permutation_length Hfetched); lia|].
  split; [|split].
  - apply (Permutation_NoDup (Permutation_sym Hfetched)).
    apply (NoDup_app_remove_r _ invalid).
    now apply (Permutation_NoDup Hsplit).
  - intros t Ht. apply (Permutation_in _ Hfetched) in Ht.
    apply (Permutation_in _ (Permutation_sym Hsplit)).
    apply in_or_app. now left.
  - apply Permutation_length in Hvalid.
    rewrite length_app, length_map in Hvalid.
    destruct results as [|r results]; cbn [generate_report_printed]; [exact I|].
    cbn [total_scanned]. rewrite Hlen. cbn [length] in *. lia.
Qed.

Lemma main_run_witness :
  exists self out probes fetched,
    new_processor 3 monday_0800 = Some self
    /\ main rate_limited_provider 3 monday_0800 in_turn in_turn []
       = (Some out,
          [] ++ probes
             ++ map (fun t => Bars t (mk_datetime (market_day self) 9 15)
                                (mk_datetime (market_day self) 15 30)
                                Config.TIMEOUT) fetched)
    /\ Permutation probes
         (map (fun t => Probe t Config.TIMEOUT)
            (all_tickers_of ["NSE"; "BSE"]%string))
    /\ length (all_tickers_of ["NSE"; "BSE"]%string) = 20%nat
    /\ (length fetched <= 20)%nat
    /\ NoDup fetched
    /\ (forall t, In t fetched -> In t (all_tickers_of ["NSE"; "BSE"]%string))
    /\ match out with
       | Some rep => total_scanned rep = 20
       | None => True
       end.
Proof.
  apply (main_run rate_limited_provider 3 monday_0800 in_turn in_turn []).
  apply le_n.
Defined.
